(** * Chore App: the chore synchronisation and state-transition core

    A shallow embedding of [App.tsx] (the [App] component: the snapshot
    handlers, [addChore], [uploadProof], [childChores] and the choice
    between [ParentView] and [ChildView]) and of [src/types.ts], with the
    properties of the design document proved about it.

    Conventions.
    - A JavaScript string is a Rocq [string]: a sequence of UTF-16 code
      units below 256 (the Latin-1 range).  [trim] and [toLowerCase] are
      the ECMAScript functions restricted to that range.
    - A Firestore document is a finite map from field names to values
      ([gmap string value]); a field that is absent reads as [None], which
      is JavaScript's [undefined].
    - Firestore, Cloud Storage, the image picker, [fetch], the clock and
      [Alert] are collaborators outside the repository.  What they answer
      is read from an [Env]; what is asked of them is recorded, in order,
      in the [calls] of a run.
    - One run of an async function is taken as a whole: its awaits follow
      one another as the design's section 5 describes, and runs do not
      interleave. *)

From Stdlib Require Import ZArith Ascii String List.
From stdpp Require Import base option list sorting strings gmap fin_maps
  pretty.

Open Scope string_scope.

(** ** JavaScript strings *)

Module Js.

(** ECMAScript [WhiteSpace] and [LineTerminator] code points below 256:
    TAB, LF, VT, FF, CR, SP and NBSP. *)
Definition isWhiteSpace (c : ascii) : bool :=
  let n := N_of_ascii c in
  ((9 <=? n) && (n <=? 13) || (n =? 32) || (n =? 160))%N.

(** Lower-case mapping of one code unit below 256: A-Z, and the Latin-1
    capitals U+00C0..U+00DE except the multiplication sign U+00D7. *)
Definition toLowerChar (c : ascii) : ascii :=
  let n := N_of_ascii c in
  if ((65 <=? n) && (n <=? 90)
      || (192 <=? n) && (n <=? 222) && negb (n =? 215))%N
  then ascii_of_N (n + 32) else c.

(** [String.prototype.toLowerCase] *)
Fixpoint toLowerCase (s : string) : string :=
  match s with
  | EmptyString => EmptyString
  | String c s' => String (toLowerChar c) (toLowerCase s')
  end.

Fixpoint trimStart (s : string) : string :=
  match s with
  | EmptyString => EmptyString
  | String c s' => if isWhiteSpace c then trimStart s' else s
  end.

Fixpoint trimEnd (s : string) : string :=
  match s with
  | EmptyString => EmptyString
  | String c s' =>
      match trimEnd s' with
      | EmptyString => if isWhiteSpace c then EmptyString
                       else String c EmptyString
      | t => String c t
      end
  end.

(** [String.prototype.trim] *)
Definition trim (s : string) : string := trimEnd (trimStart s).

(** Truthiness of a string: [!s] is [true] exactly for the empty string. *)
Definition truthy (s : string) : bool :=
  match s with EmptyString => false | _ => true end.

End Js.

(** ** Firestore values and documents *)

(** The values a field of a [chores] document can hold. *)
Inductive value : Type :=
  | VNull
  | VBool (b : bool)
  | VNum (n : Z)
  | VTimestamp (t : Z)
  | VStr (s : string).

Global Instance value_eq_dec : EqDecision value.
Proof. solve_decision. Defined.

(** [DocumentData]: field name to value, no schema. *)
Abbreviation DocumentData := (gmap string value).

(** [a ?? b] where [a] is a field read: [undefined] and [null] are nullish. *)
Definition nullish_or (a : option value) (b : value) : value :=
  match a with
  | None | Some VNull => b
  | Some v => v
  end.
Infix "??" := nullish_or (at level 45, left associativity).

(** ** src/types.ts *)

Inductive Role : Type := parent | child.

Global Instance Role_eq_dec : EqDecision Role.
Proof. solve_decision. Defined.

Module Profile.
Record t : Type := mk {
  displayName : string;
  familyCode : string;
  role : Role
}.
End Profile.

(** The object behind a [Chore] at run time.  [types.ts] declares [title],
    [assignedTo] and [familyCode] as [string] and [status] as
    ["pending" | "completed"], but the list is built from schemaless
    documents through the unchecked cast [as Chore], so each field holds
    whatever value the document had.  [None] is [undefined]. *)
Module Chore.
Record t : Type := mk {
  id : string;
  title : value;
  assignedTo : value;
  familyCode : value;
  status : value;
  photoUrl : option value;
  completedBy : option value;
  createdAt : option value;
  completedAt : option value
}.

(** The declared type of [title], [assignedTo] and [familyCode]. *)
Definition isString (v : value) : bool :=
  match v with VStr _ => true | _ => false end.
End Chore.

(** ** The collaborators: what is asked of them, what they answer *)

(** The settlement of an awaited promise. *)
Inductive outcome (A : Type) : Type :=
  | Resolved (a : A)
  | Rejected (reason : string).
Arguments Resolved {A} a.
Arguments Rejected {A} reason.

(** The bytes of a picked photo. *)
Definition Blob : Type := list Byte.byte.

(** A field of a write payload: a plain value, or the [serverTimestamp()]
    sentinel that the server replaces by its clock when it applies the
    write. *)
Inductive fieldValue : Type :=
  | Lit (v : value)
  | ServerTimestamp.

Global Instance fieldValue_eq_dec : EqDecision fieldValue.
Proof. solve_decision. Defined.

Abbreviation WriteData := (gmap string fieldValue).

(** [ImagePicker.launchImageLibraryAsync] resolves to [canceled] and
    [assets]; [assets] is [null] (here [None]) when nothing was picked. *)
Record ImagePickerAsset : Type := { uri : string }.
Record ImagePickerResult : Type := {
  canceled : bool;
  assets : option (list ImagePickerAsset)
}.

(** One request made to a collaborator. *)
Inductive Call : Type :=
  | Alert_alert (title message : string)
  | console_error (message reason : string)
  | RequestMediaLibraryPermissions
  | LaunchImageLibrary
  | Fetch (uri : string)
  | UploadBytes (path : string) (blob : Blob)
  | GetDownloadURL (path : string)
  | AddDoc (data : WriteData)
  | UpdateDoc (id : string) (data : WriteData).

(** The answers of the collaborators during one operation. *)
Record Env : Type := {
  (** [requestMediaLibraryPermissionsAsync()], its [granted] field *)
  env_permission : outcome bool;
  env_picker : outcome ImagePickerResult;
  (** [fetch(uri)] followed by [response.blob()] *)
  env_fetch : string → outcome Blob;
  (** [Date.now()]: milliseconds, an integer of magnitude below 1e21, which
      a template literal prints in plain decimal *)
  env_now : Z;
  env_uploadBytes : string → outcome unit;
  env_getDownloadURL : string → outcome string;
  (** whether the server takes the [addDoc], and the id it assigns *)
  env_addDoc : outcome string;
  env_updateDoc : outcome unit;
  (** the server clock that resolves [serverTimestamp()] *)
  env_serverTime : Z
}.

(** ** State *)

(** The [useState] cells of [App]. *)
Record AppState : Type := {
  profile : option Profile.t;
  loadingProfile : bool;
  chores : list Chore.t;
  loadingChores : bool;
  newChoreTitle : string;
  assignee : string
}.

(** The remote side: the [chores] collection, keyed by document id, and
    the storage bucket, keyed by object path. *)
Record Remote : Type := {
  collection : gmap string DocumentData;
  bucket : gmap string Blob
}.

Record World : Type := {
  ui : AppState;
  remote : Remote
}.

Definition with_ui (f : AppState → AppState) (w : World) : World :=
  {| ui := f (ui w); remote := remote w |}.
Definition with_remote (f : Remote → Remote) (w : World) : World :=
  {| ui := ui w; remote := f (remote w) |}.

Definition set_profile (v : option Profile.t) (s : AppState) : AppState :=
  {| profile := v; loadingProfile := loadingProfile s; chores := chores s;
     loadingChores := loadingChores s; newChoreTitle := newChoreTitle s;
     assignee := assignee s |}.
Definition set_chores (v : list Chore.t) (s : AppState) : AppState :=
  {| profile := profile s; loadingProfile := loadingProfile s; chores := v;
     loadingChores := loadingChores s; newChoreTitle := newChoreTitle s;
     assignee := assignee s |}.
Definition set_loadingChores (v : bool) (s : AppState) : AppState :=
  {| profile := profile s; loadingProfile := loadingProfile s;
     chores := chores s; loadingChores := v;
     newChoreTitle := newChoreTitle s; assignee := assignee s |}.
Definition set_newChoreTitle (v : string) (s : AppState) : AppState :=
  {| profile := profile s; loadingProfile := loadingProfile s;
     chores := chores s; loadingChores := loadingChores s;
     newChoreTitle := v; assignee := assignee s |}.
Definition set_assignee (v : string) (s : AppState) : AppState :=
  {| profile := profile s; loadingProfile := loadingProfile s;
     chores := chores s; loadingChores := loadingChores s;
     newChoreTitle := newChoreTitle s; assignee := v |}.

Definition set_collection (v : gmap string DocumentData) (r : Remote)
  : Remote := {| collection := v; bucket := bucket r |}.
Definition set_bucket (v : gmap string Blob) (r : Remote) : Remote :=
  {| collection := collection r; bucket := v |}.

(** ** The monad of an async function

    One run of an async function starts from a world and yields how its
    promise settled, the world it left and the requests it made, in
    order.  Each [await] is a bind; a rejection skips the rest, up to the
    enclosing [try]. *)

Record Run (A : Type) : Type := {
  settled : outcome A;
  final : World;
  calls : list Call
}.
Arguments settled {A} r.
Arguments final {A} r.
Arguments calls {A} r.

Definition M (A : Type) : Type := World → Run A.

Global Instance M_ret : MRet M := λ A a w,
  {| settled := Resolved a; final := w; calls := [] |}.

(** The requests [l] made before the run [r]. *)
Definition after {A} (l : list Call) (r : Run A) : Run A :=
  match r with
  | {| settled := o; final := w; calls := l' |} =>
      {| settled := o; final := w; calls := (l ++ l')%list |}
  end.

Global Instance M_bind : MBind M := λ A B k m w,
  match m w with
  | {| settled := Resolved a; final := w'; calls := l |} => after l (k a w')
  | {| settled := Rejected e; final := w'; calls := l |} =>
      {| settled := Rejected e; final := w'; calls := l |}
  end.

(** [try { body } catch (error) { handler }] *)
Definition try_catch {A} (body : M A) (handler : string → M A) : M A :=
  λ w,
  match body w with
  | {| settled := Resolved a; final := w'; calls := l |} =>
      {| settled := Resolved a; final := w'; calls := l |}
  | {| settled := Rejected e; final := w'; calls := l |} =>
      after l (handler e w')
  end.

Definition await {A} (o : outcome A) : M A := λ w,
  {| settled := o; final := w; calls := [] |}.
Definition gets {A} (f : World → A) : M A := λ w,
  {| settled := Resolved (f w); final := w; calls := [] |}.
Definition modify (f : World → World) : M unit := λ w,
  {| settled := Resolved tt; final := f w; calls := [] |}.
Definition call (c : Call) : M unit := λ w,
  {| settled := Resolved tt; final := w; calls := [c] |}.

(** ** The Chore Repository and the object store

    Firestore and Cloud Storage are services outside the repository
    ([src/firebase.ts] only hands out the handles [db] and [storage]), so
    what their operations do is taken from the design document, sections
    4.2 and 6. *)

(** Modelled from the spec: the server puts its clock, "createdAt=now
    (server-assigned)", in place of the [serverTimestamp()] sentinel. *)
Definition resolveField (serverTime : Z) (f : fieldValue) : value :=
  match f with
  | Lit v => v
  | ServerTimestamp => VTimestamp serverTime
  end.

(** What the server stores for a payload. *)
Definition resolveData (serverTime : Z) (data : WriteData) : DocumentData :=
  resolveField serverTime <$> data.

(** Modelled from the spec: [addDoc(collection(db, "chores"), data)] is
    the repository's [create], which "assigns id": the document is new,
    under the id the server assigns, never one that is in use. *)
Definition addDoc (env : Env) (data : WriteData) : M string :=
  call (AddDoc data);;
  id ← await (env_addDoc env);
  coll ← gets (λ w, collection (remote w));
  match coll !! id with
  | Some _ => await (Rejected "already-exists")
  | None =>
      modify (with_remote (set_collection
        (<[id := resolveData (env_serverTime env) data]> coll)));;
      mret id
  end.

(** Modelled from the spec: [updateDoc(doc(db, "chores", id), data)] is
    the repository's [update], which "merges fields into existing record,
    never removes fields not mentioned"; there must be a record. *)
Definition updateDoc (env : Env) (id : string) (data : WriteData) : M unit :=
  call (UpdateDoc id data);;
  await (env_updateDoc env);;
  coll ← gets (λ w, collection (remote w));
  match coll !! id with
  | None => await (Rejected "not-found")
  | Some old =>
      modify (with_remote (set_collection
        (<[id := resolveData (env_serverTime env) data ∪ old]> coll)))
  end.

(** Modelled from the spec: [uploadBytes(ref(storage, path), blob)] is the
    object store's "write bytes". *)
Definition uploadBytes (env : Env) (path : string) (blob : Blob) : M unit :=
  call (UploadBytes path blob);;
  await (env_uploadBytes env path);;
  modify (with_remote (λ r, set_bucket (<[path := blob]> (bucket r)) r)).

(** Modelled from the spec: [getDownloadURL(ref(storage, path))] is the
    object store's "retrieve a stable public-or-signed URL". *)
Definition getDownloadURL (env : Env) (path : string) : M string :=
  call (GetDownloadURL path);;
  await (env_getDownloadURL env path).

(** Modelled from the spec: the order that "descending sort on createdAt"
    uses, which is Firestore's: by type first, then within the type. *)
Definition typeRank (v : value) : N :=
  match v with
  | VNull => 0 | VBool _ => 1 | VNum _ => 2 | VTimestamp _ => 3 | VStr _ => 4
  end.

Definition value_leb (a b : value) : bool :=
  match a, b with
  | VBool x, VBool y => implb x y
  | VNum x, VNum y => (x <=? y)%Z
  | VTimestamp x, VTimestamp y => (x <=? y)%Z
  | VStr x, VStr y => String.leb x y
  | _, _ => (typeRank a <=? typeRank b)%N
  end.

(** A document snapshot: [docSnap.id] and [docSnap.data()]. *)
Definition DocSnap : Type := string * DocumentData.

(** Modelled from the spec: [where(field, "==", v)], the "equality filter
    on familyCode". *)
Definition where_eq (field : string) (v : value) (d : DocSnap) : bool :=
  bool_decide (d.2 !! field = Some v).

(** Insertion into a list that is sorted on [field], greatest first. *)
Fixpoint insert_desc (field : string) (d : DocSnap) (l : list DocSnap)
  : list DocSnap :=
  match l with
  | [] => [d]
  | e :: l' =>
      match d.2 !! field, e.2 !! field with
      | Some x, Some y =>
          if value_leb y x then d :: l else e :: insert_desc field d l'
      | _, _ => d :: l
      end
  end.

(** Modelled from the spec: [orderBy(field, "desc")], the "descending
    sort on createdAt": documents without the field are left out, the
    others come greatest first. *)
Definition orderBy_desc (field : string) (l : list DocSnap) : list DocSnap :=
  foldr (insert_desc field) []
        (filter (λ d : DocSnap, is_Some (d.2 !! field)) l).

(** [a] comes before [b] in a list sorted on [field], greatest first. *)
Definition desc_on (field : string) (a b : DocSnap) : Prop :=
  ∃ x y, a.2 !! field = Some x ∧ b.2 !! field = Some y ∧ value_leb y x.

(** [familyQuery], evaluated on the collection as it is: the [docs] of
    the snapshot delivered to the subscription. *)
Definition familyQuery (p : Profile.t) (coll : gmap string DocumentData)
  : list DocSnap :=
  orderBy_desc "createdAt"
    (filter (λ d, where_eq "familyCode" (VStr (Profile.familyCode p)) d)
            (map_to_list coll)).

(** ** The device: photo library, network fetch, dialogs *)

Definition requestMediaLibraryPermissionsAsync (env : Env) : M bool :=
  call RequestMediaLibraryPermissions;;
  await (env_permission env).

Definition launchImageLibraryAsync (env : Env) : M ImagePickerResult :=
  call LaunchImageLibrary;;
  await (env_picker env).

(** [fetch(uri)] then [response.blob()] *)
Definition fetchBlob (env : Env) (uri : string) : M Blob :=
  call (Fetch uri);;
  await (env_fetch env uri).

Definition alert (title message : string) : M unit :=
  call (Alert_alert title message).

Definition consoleError (message reason : string) : M unit :=
  call (console_error message reason).

(** ** App.tsx: the Sync Engine *)

(** The body of [snapshot.docs.map(...)]: one raw record to one [Chore]. *)
Definition toChore (docSnap : DocSnap) : Chore.t :=
  let data := docSnap.2 in
  {| Chore.id := docSnap.1;
     Chore.title := data !! "title" ?? VStr "Untitled chore";
     Chore.assignedTo := data !! "assignedTo" ?? VStr "";
     Chore.familyCode := data !! "familyCode" ?? VStr "";
     Chore.status := data !! "status" ?? VStr "pending";
     Chore.photoUrl := data !! "photoUrl";
     Chore.completedBy := data !! "completedBy";
     Chore.createdAt := data !! "createdAt";
     Chore.completedAt := data !! "completedAt" |}.

(** The first callback given to [onSnapshot]. *)
Definition onSnapshotNext (snapshot : list DocSnap) : M unit :=
  let next := toChore <$> snapshot in
  modify (with_ui (set_chores next));;
  modify (with_ui (set_loadingChores false)).

(** The second callback given to [onSnapshot]. *)
Definition onSnapshotError (error : string) : M unit :=
  consoleError "Failed to subscribe to chores" error;;
  alert "Sync error" "Could not subscribe to chores updates.";;
  modify (with_ui (set_loadingChores false)).

(** A delivery of the subscription opened for the profile in [App]'s
    state: the query of that profile, evaluated on some state [coll] of
    the collection, is handed to the first callback.  Without a profile
    the effect returns before it subscribes. *)
Definition deliverSnapshot (coll : gmap string DocumentData) : M unit :=
  s ← gets ui;
  match profile s with
  | None => mret tt
  | Some p => onSnapshotNext (familyQuery p coll)
  end.

(** [setProfile(payload)], as [saveProfile] and [resetProfile] call it,
    followed by what the subscription effect does at once when it runs
    for the new profile: nothing without a profile, else
    [setLoadingChores(true)]. *)
Definition setProfile (payload : option Profile.t) : M unit :=
  modify (with_ui (set_profile payload));;
  match payload with
  | None => mret tt
  | Some _ => modify (with_ui (set_loadingChores true))
  end.

(** ** App.tsx: create a chore *)

Definition addChore (env : Env) : M unit :=
  s ← gets ui;
  match profile s with
  | None => mret tt
  | Some p =>
      if negb (Js.truthy (Js.trim (newChoreTitle s)))
         || negb (Js.truthy (Js.trim (assignee s)))
      then alert "Missing info" "Add a chore title and who it is for."
      else
        try_catch
          (addDoc env (list_to_map
             [("title", Lit (VStr (Js.trim (newChoreTitle s))));
              ("assignedTo", Lit (VStr (Js.trim (assignee s))));
              ("familyCode", Lit (VStr (Profile.familyCode p)));
              ("status", Lit (VStr "pending"));
              ("photoUrl", Lit VNull);
              ("createdAt", ServerTimestamp)]);;
           modify (with_ui (set_newChoreTitle ""));;
           modify (with_ui (set_assignee "")))
          (λ error,
             consoleError "Failed to add chore" error;;
             alert "Save failed" "Could not add this chore right now.")
  end.

(** ** App.tsx: upload proof *)

(** The template literal given to [ref(storage, ...)]. *)
Definition proofPath (p : Profile.t) (chore : Chore.t) (now : Z) : string :=
  "choreProofs/" +:+ Profile.familyCode p +:+ "/" +:+ Chore.id chore
  +:+ "-" +:+ pretty now +:+ ".jpg".

Definition uploadProof (env : Env) (chore : Chore.t) : M unit :=
  s ← gets ui;
  match profile s with
  | None => mret tt
  | Some p =>
      granted ← requestMediaLibraryPermissionsAsync env;
      if negb granted
      then alert "Permission needed" "We need access to your photos."
      else
        pickerResult ← launchImageLibraryAsync env;
        match canceled pickerResult, assets pickerResult with
        | true, _ | false, None | false, Some [] => mret tt
        | false, Some (asset :: _) =>
            try_catch
              (blob ← fetchBlob env (uri asset);
               let storageRef := proofPath p chore (env_now env) in
               uploadBytes env storageRef blob;;
               downloadUrl ← getDownloadURL env storageRef;
               updateDoc env (Chore.id chore) (list_to_map
                 [("status", Lit (VStr "completed"));
                  ("photoUrl", Lit (VStr downloadUrl));
                  ("completedBy", Lit (VStr (Profile.displayName p)));
                  ("completedAt", ServerTimestamp)]))
              (λ error,
                 consoleError "Failed to upload proof" error;;
                 alert "Upload failed" "Could not upload photo right now.")
        end
  end.

(** ** App.tsx: the View Projector *)

(** [chore.assignedTo?.toLowerCase().trim()]: [undefined] (here [None]) on
    [null], a [TypeError] on a value that is neither nullish nor a
    string. *)
Definition assignedKey (v : value) : outcome (option string) :=
  match v with
  | VNull => Resolved None
  | VStr s => Resolved (Some (Js.trim (Js.toLowerCase s)))
  | _ => Rejected "TypeError: chore.assignedTo?.toLowerCase is not a function"
  end.

(** [Array.prototype.filter] with a callback that may throw. *)
Fixpoint filterThrowing {A} (f : A → outcome bool) (l : list A)
  : outcome (list A) :=
  match l with
  | [] => Resolved []
  | x :: l' =>
      match f x with
      | Rejected e => Rejected e
      | Resolved b =>
          match filterThrowing f l' with
          | Rejected e => Rejected e
          | Resolved r => Resolved (if b then x :: r else r)
          end
      end
  end.

Definition childChores (p : option Profile.t) (chores : list Chore.t)
  : outcome (list Chore.t) :=
  match p with
  | None => Resolved []
  | Some p =>
      if negb (bool_decide (Profile.role p = child)) then Resolved []
      else
        filterThrowing
          (λ chore,
             match assignedKey (Chore.assignedTo chore) with
             | Rejected e => Rejected e
             | Resolved k =>
                 Resolved (bool_decide
                   (k = Some (Js.trim (Js.toLowerCase
                                         (Profile.displayName p)))))
             end)
          chores
  end.

(** The list handed to the view that [App] renders for a profile:
    [childChores] is computed on every render, then [ParentView] gets
    [chores] and [ChildView] gets [childChores]. *)
Definition projectView (p : Profile.t) (chores : list Chore.t)
  : outcome (list Chore.t) :=
  match childChores (Some p) chores with
  | Rejected e => Rejected e
  | Resolved cc =>
      if bool_decide (Profile.role p = parent) then Resolved chores
      else Resolved cc
  end.

(** ** The moves of the system

    One step is one run of a core operation, [addChore] or [uploadProof],
    under any answers of the collaborators, or one of the events around
    them: a snapshot or an error of the subscription, typing in the two
    inputs, and [setProfile] (by [saveProfile] or [resetProfile]).  Each
    run is taken as a whole. *)
Inductive step : World → World → Prop :=
  | step_addChore env w :
      step w (final (addChore env w))
  | step_uploadProof env chore w :
      step w (final (uploadProof env chore w))
  | step_snapshot coll w :
      step w (final (deliverSnapshot coll w))
  | step_snapshotError error w :
      step w (final (onSnapshotError error w))
  | step_typing title who w :
      step w (with_ui (λ s, set_assignee who (set_newChoreTitle title s)) w)
  | step_setProfile payload w :
      step w (final (setProfile payload w)).

(** The record [id] of a collection has status "completed". *)
Definition completed (coll : gmap string DocumentData) (id : string) : Prop :=
  ∃ d, coll !! id = Some d ∧ d !! "status" = Some (VStr "completed").

(** The record [id] of a collection has status "pending". *)
Definition pending (coll : gmap string DocumentData) (id : string) : Prop :=
  ∃ d, coll !! id = Some d ∧ d !! "status" = Some (VStr "pending").

(** ** Requests by class *)

Definition isAlert (c : Call) : bool :=
  match c with Alert_alert _ _ => true | _ => false end.
Definition isRepositoryWrite (c : Call) : bool :=
  match c with AddDoc _ | UpdateDoc _ _ => true | _ => false end.
Definition isUpload (c : Call) : bool :=
  match c with UploadBytes _ _ => true | _ => false end.

(** ** The name match of the View Projector, as the design states it

    A chore is a child's when its [assignedTo], case-folded and trimmed,
    equals the profile's [displayName], case-folded and trimmed. *)
Definition assignedToProfile (p : Profile.t) (c : Chore.t) : bool :=
  match Chore.assignedTo c with
  | VStr s =>
      bool_decide (Js.trim (Js.toLowerCase s)
                   = Js.trim (Js.toLowerCase (Profile.displayName p)))
  | _ => false
  end.

(** ** The storage path, as the design states it

    [choreProofs/{familyCode}/{choreId}-{uploadTimestamp}] *)
Definition specProofPath (familyCode choreId : string) (uploadTimestamp : Z)
  : string :=
  "choreProofs/" +:+ familyCode +:+ "/" +:+ choreId +:+ "-"
  +:+ pretty uploadTimestamp.

(** ** The fields of the completion write *)
Definition completionKeys : list string :=
  ["status"; "photoUrl"; "completedBy"; "completedAt"].

(** ** The scenario of the design document

    A parent and two children of family "abc12", the chore "Dishes" for
    Sam, and collaborators that all answer well. *)

Definition pat : Profile.t := Profile.mk "Pat" "abc12" parent.
Definition sam : Profile.t := Profile.mk "Sam" "abc12" child.
Definition alex : Profile.t := Profile.mk "Alex" "abc12" child.

Definition doc (fields : list (string * value)) : DocumentData :=
  list_to_map fields.

Definition dishes : DocumentData :=
  doc [("title", VStr "Dishes"); ("assignedTo", VStr "Sam");
       ("familyCode", VStr "abc12"); ("status", VStr "pending");
       ("photoUrl", VNull); ("createdAt", VTimestamp 1000)].

(** A record of the same family written without going through the app:
    its title is the empty string. *)
Definition blankTitle : DocumentData :=
  doc [("title", VStr ""); ("assignedTo", VStr "Alex");
       ("familyCode", VStr "abc12"); ("status", VStr "pending");
       ("createdAt", VTimestamp 2000)].

(** A record of another family. *)
Definition laundry : DocumentData :=
  doc [("title", VStr "Laundry"); ("assignedTo", VStr "Sam");
       ("familyCode", VStr "xyz99"); ("status", VStr "completed");
       ("createdAt", VTimestamp 3000)].

(** A record whose assignee is written with other case and spaces. *)
Definition shoes : DocumentData :=
  doc [("title", VStr "Shoes"); ("assignedTo", VStr "  SAM ");
       ("familyCode", VStr "abc12"); ("status", VStr "pending");
       ("createdAt", VTimestamp 2500)].

Definition someChores : gmap string DocumentData :=
  list_to_map [("c1", dishes); ("c2", blankTitle); ("c3", laundry);
               ("c4", shoes)].

(** The chores that a device of family "abc12" holds for [someChores]. *)
Definition held : list Chore.t :=
  toChore <$> [("c4", shoes); ("c2", blankTitle); ("c1", dishes)].

(** A record without a title. *)
Definition untitled : DocSnap :=
  ("c0", doc [("familyCode", VStr "abc12"); ("createdAt", VTimestamp 500)]).

Definition worldOf (p : Profile.t) (list : list Chore.t)
    (title who : string) (coll : gmap string DocumentData) : World :=
  {| ui := {| profile := Some p; loadingProfile := false; chores := list;
              loadingChores := false; newChoreTitle := title;
              assignee := who |};
     remote := {| collection := coll; bucket := ∅ |} |}.

(** The fields [keys] of the record [id], in that order. *)
Definition fieldsOf (coll : gmap string DocumentData) (id : string)
    (keys : list string) : list (option value) :=
  (λ k, coll !! id ≫= (λ d : DocumentData, d !! k)) <$> keys.

(** Sam's device, holding the chores of the family, and the chore that
    Sam is about to prove. *)
Definition samWorld : World := worldOf sam held "" "" someChores.
Definition dishesChore : Chore.t := toChore ("c1", dishes).

(** Pat's device, with a new chore typed in. *)
Definition patWorld : World :=
  worldOf pat held "  Trash " "Alex " someChores.

(** The completion write for "Dishes" when all goes well. *)
Definition dishesDone : WriteData :=
  list_to_map
    [("status", Lit (VStr "completed"));
     ("photoUrl",
      Lit (VStr "https://storage/choreProofs/abc12/c1-1700000000123.jpg"));
     ("completedBy", Lit (VStr "Sam")); ("completedAt", ServerTimestamp)].

Definition photo : ImagePickerAsset := {| uri := "file:///photo.jpg" |}.

Definition answers (permission : outcome bool) (upload : outcome unit)
    (url : string → outcome string) (added : outcome string)
    (updated : outcome unit) : Env :=
  {| env_permission := permission;
     env_picker := Resolved {| canceled := false; assets := Some [photo] |};
     env_fetch := λ _, Resolved [];
     env_now := 1700000000123;
     env_uploadBytes := λ _, upload;
     env_getDownloadURL := url;
     env_addDoc := added;
     env_updateDoc := updated;
     env_serverTime := 4000 |}.

Definition allWell : Env :=
  answers (Resolved true) (Resolved tt)
          (λ path, Resolved ("https://storage/" +:+ path))
          (Resolved "c9") (Resolved tt).

Definition permissionDenied : Env :=
  answers (Resolved false) (Resolved tt)
          (λ path, Resolved ("https://storage/" +:+ path))
          (Resolved "c9") (Resolved tt).


(** ** Shapes of JavaScript strings *)

(** No code unit of the string is white space at its two ends. *)
Definition startsClean (s : string) : Prop :=
  match s with
  | EmptyString => True
  | String c _ => Js.isWhiteSpace c = false
  end.

(** All code units are white space. *)
Fixpoint blank (s : string) : bool :=
  match s with
  | EmptyString => true
  | String c s' => Js.isWhiteSpace c && blank s'
  end.

(** ** App.tsx: ChoreCard, ParentView, ChildView and what App renders

    Of each component the model keeps what it shows and offers, not how it
    is styled. *)

(** Truthiness of a field value: [null], [false], [0] and [""] are
    falsy. *)
Definition truthyValue (v : value) : bool :=
  match v with
  | VNull => false
  | VBool b => b
  | VNum n => negb (n =? 0)%Z
  | VTimestamp _ => true
  | VStr s => Js.truthy s
  end.

(** Truthiness of an optional field: [undefined] is falsy. *)
Definition truthyField (o : option value) : bool :=
  match o with
  | None => false
  | Some v => truthyValue v
  end.

(** What one [ChoreCard] shows. *)
Record Card : Type := {
  cardTitle : value;
  (** the text of the status pill and its colour *)
  statusText : value;
  statusColor : string;
  cardAssignedTo : value;
  (** the line "Completed by: ...", when there is one *)
  completedByLine : option value;
  (** the [uri] of the preview image, when there is one *)
  previewImage : option value;
  (** whether "Upload photo proof" is offered *)
  uploadButton : bool
}.

(** [ChoreCard({ chore, role, onUploadProof })]; [onUploadProof] says
    whether the handler was passed. *)
Definition ChoreCard (chore : Chore.t) (role : Role) (onUploadProof : bool)
  : Card :=
  let status :=
    if truthyValue (Chore.status chore) then Chore.status chore
    else VStr "pending" in
  let statusColor :=
    if bool_decide (status = VStr "completed") then "#22c55e"
    else "#f97316" in
  {| cardTitle := Chore.title chore;
     statusText := status;
     statusColor := statusColor;
     cardAssignedTo := Chore.assignedTo chore;
     completedByLine :=
       if truthyField (Chore.completedBy chore) then Chore.completedBy chore
       else None;
     previewImage :=
       if truthyField (Chore.photoUrl chore) then Chore.photoUrl chore
       else None;
     uploadButton :=
       bool_decide (role = child)
       && negb (bool_decide (Chore.status chore = VStr "completed"))
       && onUploadProof |}.

(** The list part of a view: the spinner while loading, else a [FlatList],
    which shows its [ListEmptyComponent] when it has no data. *)
Inductive ChoreList : Type :=
  | ActivityIndicator
  | ListEmpty (text : string)
  | FlatList (cards : list Card).

Definition flatList (cards : list Card) (empty : string) : ChoreList :=
  match cards with
  | [] => ListEmpty empty
  | _ => FlatList cards
  end.

(** [ParentView]: the two inputs of the form, and the family's chores. *)
Record ParentScreen : Type := {
  titleInput : string;
  assigneeInput : string;
  familyChores : ChoreList
}.

Definition ParentView (chores : list Chore.t) (loadingChores : bool)
    (assignee newChoreTitle : string) : ParentScreen :=
  {| titleInput := newChoreTitle;
     assigneeInput := assignee;
     familyChores :=
       if loadingChores then ActivityIndicator
       else flatList ((λ item, ChoreCard item parent false) <$> chores)
                     "No chores yet. Add one above." |}.

Definition ChildView (chores : list Chore.t) (loadingChores : bool)
  : ChoreList :=
  if loadingChores then ActivityIndicator
  else flatList ((λ item, ChoreCard item child true) <$> chores)
                "No chores assigned to you yet.".

(** [String.prototype.toUpperCase] of one code unit below 256, as code
    units: sharp s becomes "SS", and the micro sign and y with diaeresis
    leave the Latin-1 range. *)
Definition toUpperChar (c : ascii) : list N :=
  let n := N_of_ascii c in
  if ((97 <=? n) && (n <=? 122)
      || (224 <=? n) && (n <=? 254) && negb (n =? 247))%N
  then [(n - 32)%N]
  else if (n =? 223)%N then [83%N; 83%N]
  else if (n =? 181)%N then [924%N]
  else if (n =? 255)%N then [376%N]
  else [n].

Fixpoint toUpperCase (s : string) : list N :=
  match s with
  | EmptyString => []
  | String c s' => (toUpperChar c ++ toUpperCase s')%list
  end.

(** What [App] returns. *)
Inductive Screen : Type :=
  | LoadingScreen
  | ProfileSetupScreen
  | MainScreen (greeting : string) (familyCodeShown : list N)
               (view : ParentScreen + ChoreList).

(** The body of [App] after its hooks: [childChores] is computed first,
    then the three returns. *)
Definition render (s : AppState) : outcome Screen :=
  match childChores (profile s) (chores s) with
  | Rejected e => Rejected e
  | Resolved childChores =>
      if loadingProfile s then Resolved LoadingScreen
      else
        match profile s with
        | None => Resolved ProfileSetupScreen
        | Some p =>
            Resolved (MainScreen
              ("Hi, " +:+ Profile.displayName p)
              (toUpperCase (Profile.familyCode p))
              (if bool_decide (Profile.role p = parent)
               then inl (ParentView (chores s) (loadingChores s)
                                    (assignee s) (newChoreTitle s))
               else inr (ChildView childChores (loadingChores s))))
        end
  end.

(** ** App.tsx: ProfileSetup *)

(** The [useState] cells of [ProfileSetup]. *)
Record ProfileForm : Type := {
  form_role : Role;
  form_familyCode : string;
  form_displayName : string
}.

(** [handleSave]: either the alert, or the profile handed to [onSave]. *)
Definition handleSave (f : ProfileForm) : Call + Profile.t :=
  if negb (Js.truthy (Js.trim (form_familyCode f)))
     || negb (Js.truthy (Js.trim (form_displayName f)))
  then inl (Alert_alert "Missing info" "Fill in your name and family code.")
  else inr {| Profile.role := form_role f;
              Profile.displayName := Js.trim (form_displayName f);
              Profile.familyCode :=
                Js.toLowerCase (Js.trim (form_familyCode f)) |}.

(** ** App.tsx: the Identity Store

    [AsyncStorage] is a map from keys to strings on the device; each of
    its calls may reject.  [JSON] is the built-in: what the code needs of
    it is a text for a profile and a profile, or a [SyntaxError], for a
    text. *)

Definition FAMILY_STORAGE_KEY : string := "chore-app-profile".

Record Device : Type := {
  world : World;
  asyncStorage : gmap string string
}.

Record JSON : Type := {
  stringify : Profile.t → string;
  parse : string → outcome Profile.t
}.

Definition set_loadingProfile (v : bool) (s : AppState) : AppState :=
  {| profile := profile s; loadingProfile := v; chores := chores s;
     loadingChores := loadingChores s; newChoreTitle := newChoreTitle s;
     assignee := assignee s |}.

(** The values the [useState] cells of [App] start with. *)
Definition initialState : AppState :=
  {| profile := None; loadingProfile := true; chores := [];
     loadingChores := false; newChoreTitle := ""; assignee := "" |}.

(** The process starts again on the same device: the state of [App] is
    new, the storage is what it was. *)
Definition restart (d : Device) : Device :=
  {| world := {| ui := initialState; remote := remote (world d) |};
     asyncStorage := asyncStorage d |}.

(** The first effect of [App]:
    [getItem(KEY).then(stored => { if (stored) setProfile(JSON.parse(stored)) })
      .finally(() => setLoadingProfile(false))].
    [getItem] says whether the read succeeds. *)
Definition loadProfile (json : JSON) (getItem : outcome unit) (d : Device)
  : outcome unit * Device :=
  let finally (o : outcome unit) (w : World) :=
    (o, {| world := with_ui (set_loadingProfile false) w;
           asyncStorage := asyncStorage d |}) in
  match getItem with
  | Rejected e => finally (Rejected e) (world d)
  | Resolved _ =>
      match asyncStorage d !! FAMILY_STORAGE_KEY with
      | None => finally (Resolved tt) (world d)
      | Some stored =>
          if Js.truthy stored then
            match parse json stored with
            | Rejected e => finally (Rejected e) (world d)
            | Resolved p =>
                finally (Resolved tt) (final (setProfile (Some p) (world d)))
            end
          else finally (Resolved tt) (world d)
      end
  end.

(** [saveProfile]: [setProfile(payload)], then
    [await AsyncStorage.setItem(KEY, JSON.stringify(payload))]. *)
Definition saveProfile (json : JSON) (setItem : outcome unit)
    (payload : Profile.t) (d : Device) : outcome unit * Device :=
  let w := final (setProfile (Some payload) (world d)) in
  match setItem with
  | Resolved _ =>
      (Resolved tt,
       {| world := w;
          asyncStorage :=
            <[FAMILY_STORAGE_KEY := stringify json payload]>
              (asyncStorage d) |})
  | Rejected e => (Rejected e, {| world := w; asyncStorage := asyncStorage d |})
  end.

(** [resetProfile]: [await AsyncStorage.removeItem(KEY)], then
    [setProfile(null)]. *)
Definition resetProfile (removeItem : outcome unit) (d : Device)
  : outcome unit * Device :=
  match removeItem with
  | Resolved _ =>
      (Resolved tt,
       {| world := final (setProfile None (world d));
          asyncStorage := delete FAMILY_STORAGE_KEY (asyncStorage d) |})
  | Rejected e => (Rejected e, d)
  end.

(** *** A [JSON] for profiles

    [JSON.stringify] of the object [{ role, displayName, familyCode }], and
    [JSON.parse] on the texts it yields. *)

Definition hexDigit (n : N) : ascii :=
  ascii_of_N (if (n <? 10)%N then 48 + n else 87 + n).

(** [QuoteJSONString], one code unit, in front of [tail]. *)
Definition escapeInto (c : ascii) (tail : string) : string :=
  let n := N_of_ascii c in
  if (n =? 8)%N then String "\" (String "b" tail)
  else if (n =? 9)%N then String "\" (String "t" tail)
  else if (n =? 10)%N then String "\" (String "n" tail)
  else if (n =? 12)%N then String "\" (String "f" tail)
  else if (n =? 13)%N then String "\" (String "r" tail)
  else if (n =? 34)%N then String "\" (String "034" tail)
  else if (n =? 92)%N then String "\" (String "\" tail)
  else if (n <? 32)%N then
    String "\" (String "u" (String "0" (String "0"
      (String (hexDigit (n / 16)) (String (hexDigit (n mod 16)) tail)))))
  else String c tail.

(** The characters of a string, quoted, in front of [tail]: the text
    after the opening quote. *)
Fixpoint quoteInto (s tail : string) : string :=
  match s with
  | EmptyString => String "034" tail
  | String c s' => escapeInto c (quoteInto s' tail)
  end.

Definition roleName (r : Role) : string :=
  match r with parent => "parent" | child => "child" end.

Definition stringifyProfile (p : Profile.t) : string :=
  "{" +:+ String "034" ("role" +:+ String "034" (":" +:+ String "034"
    (quoteInto (roleName (Profile.role p))
    ("," +:+ String "034" ("displayName" +:+ String "034" (":" +:+
    String "034" (quoteInto (Profile.displayName p)
    ("," +:+ String "034" ("familyCode" +:+ String "034" (":" +:+
    String "034" (quoteInto (Profile.familyCode p) "}"))))))))))).

Definition hexValue (c : ascii) : option N :=
  let n := N_of_ascii c in
  if ((48 <=? n) && (n <=? 57))%N then Some (n - 48)%N
  else if ((97 <=? n) && (n <=? 102))%N then Some (n - 87)%N
  else if ((65 <=? n) && (n <=? 70))%N then Some (n - 55)%N
  else None.

(** The string that ends at the next unescaped quote, and the text after
    it. *)
Fixpoint unquote (s : string) : option (string * string) :=
  let cons (c : ascii) (r : option (string * string)) :=
    match r with
    | Some (t, rest) => Some (String c t, rest)
    | None => None
    end in
  match s with
  | EmptyString => None
  | String "034" rest => Some (EmptyString, rest)
  | String "\" (String "u" (String a (String b (String c (String d rest))))) =>
      match hexValue a, hexValue b, hexValue c, hexValue d with
      | Some 0%N, Some 0%N, Some h, Some l =>
          cons (ascii_of_N (16 * h + l)) (unquote rest)
      | _, _, _, _ => None
      end
  | String "\" (String e rest) =>
      if Ascii.eqb e "b" then cons "008"%char (unquote rest)
      else if Ascii.eqb e "t" then cons "009"%char (unquote rest)
      else if Ascii.eqb e "n" then cons "010"%char (unquote rest)
      else if Ascii.eqb e "f" then cons "012"%char (unquote rest)
      else if Ascii.eqb e "r" then cons "013"%char (unquote rest)
      else if Ascii.eqb e "034" then cons "034"%char (unquote rest)
      else if Ascii.eqb e "\" then cons "\"%char (unquote rest)
      else if Ascii.eqb e "/" then cons "/"%char (unquote rest)
      else None
  | String c rest =>
      if (N_of_ascii c <? 32)%N then None else cons c (unquote rest)
  end.

(** Drop [prefix] from the front of [s]. *)
Fixpoint expect (prefix s : string) : option string :=
  match prefix, s with
  | EmptyString, _ => Some s
  | String a prefix', String b s' =>
      if Ascii.eqb a b then expect prefix' s' else None
  | _, _ => None
  end.

(** A key, its colon and the quote that opens its value. *)
Definition keyPrefix (key : string) : string :=
  String "034" (key +:+ String "034" (":" +:+ String "034" "")).

Definition parseProfile (s : string) : outcome Profile.t :=
  let field (key : string) (s : string) : option (string * string) :=
    expect (keyPrefix key) s ≫= unquote in
  match
    s ← expect "{" s;
    '(r, s) ← field "role" s;
    s ← expect "," s;
    '(n, s) ← field "displayName" s;
    s ← expect "," s;
    '(f, s) ← field "familyCode" s;
    role ← (if String.eqb r "parent" then Some parent
            else if String.eqb r "child" then Some child else None);
    if String.eqb s "}"
    then Some {| Profile.role := role; Profile.displayName := n;
                 Profile.familyCode := f |}
    else None
  with
  | Some p => Resolved p
  | None => Rejected "SyntaxError"
  end.

Definition profileJson : JSON :=
  {| stringify := stringifyProfile; parse := parseProfile |}.

(** ** Runs of the pipeline up to its last stage *)

(** Access is granted, [asset] is picked, its bytes [blob] are read and
    uploaded, and [url] is retrieved. *)
Definition uploaded (env : Env) (p : Profile.t) (chore : Chore.t)
    (asset : ImagePickerAsset) (rest : list ImagePickerAsset) (blob : Blob)
    (url : string) : Prop :=
  env_permission env = Resolved true
  ∧ env_picker env
    = Resolved {| canceled := false; assets := Some (asset :: rest) |}
  ∧ env_fetch env (uri asset) = Resolved blob
  ∧ env_uploadBytes env (proofPath p chore (env_now env)) = Resolved tt
  ∧ env_getDownloadURL env (proofPath p chore (env_now env)) = Resolved url.

(** The update is rejected by the server. *)
Definition updateFails : Env :=
  answers (Resolved true) (Resolved tt)
          (λ path, Resolved ("https://storage/" +:+ path))
          (Resolved "c9") (Rejected "unavailable").

(** The picker is closed without a choice. *)
Definition pickerCanceled : Env :=
  {| env_permission := Resolved true;
     env_picker := Resolved {| canceled := true; assets := None |};
     env_fetch := env_fetch allWell;
     env_now := env_now allWell;
     env_uploadBytes := env_uploadBytes allWell;
     env_getDownloadURL := env_getDownloadURL allWell;
     env_addDoc := env_addDoc allWell;
     env_updateDoc := env_updateDoc allWell;
     env_serverTime := env_serverTime allWell |}.

(** The server does not take the new chore. *)
Definition addFails : Env :=
  answers (Resolved true) (Resolved tt)
          (λ path, Resolved ("https://storage/" +:+ path))
          (Rejected "unavailable") (Resolved tt).

(** A device without a profile. *)
Definition noProfileWorld : World :=
  {| ui := {| profile := None; loadingProfile := false; chores := held;
              loadingChores := false; newChoreTitle := "Trash";
              assignee := "Alex" |};
     remote := {| collection := someChores; bucket := ∅ |} |}.

(** The write for the chore typed in on Pat's device. *)
Definition trashWrite : WriteData :=
  list_to_map
    [("title", Lit (VStr "Trash")); ("assignedTo", Lit (VStr "Alex"));
     ("familyCode", Lit (VStr "abc12")); ("status", Lit (VStr "pending"));
     ("photoUrl", Lit VNull); ("createdAt", ServerTimestamp)].

(** The form of [ProfileSetup] as a child fills it in. *)
Definition samForm : ProfileForm :=
  {| form_role := child; form_familyCode := " ABC12 ";
     form_displayName := "Sam " |}.

(** A record whose assignee is a number. *)
Definition numbered : DocSnap :=
  ("c5", doc [("assignedTo", VNum 7); ("familyCode", VStr "abc12");
              ("createdAt", VTimestamp 100)]).

(** A device on which nothing is stored yet. *)
Definition newDevice : Device :=
  {| world := {| ui := initialState;
                 remote := {| collection := someChores; bucket := ∅ |} |};
     asyncStorage := ∅ |}.

(** The assignee of a record is one that [childChores] can read: absent,
    [null] or a string. *)
Definition readableAssignee (d : DocSnap) : bool :=
  match d.2 !! "assignedTo" with
  | None | Some VNull | Some (VStr _) => true
  | Some _ => false
  end.

(** Sam's device with Sam's profile stored. *)
Definition samDevice : Device :=
  {| world := samWorld;
     asyncStorage := {[ FAMILY_STORAGE_KEY := stringifyProfile sam ]} |}.

(** Sam's device while the subscription is being set up: the chores held
    are behind the spinner. *)
Definition samSubscribing : World := final (setProfile (Some sam) samWorld).

(** * Properties *)

(** Evaluate one run as far as the answers of the collaborators are
    known. *)
Ltac run :=
  unfold uploadProof, addChore, deliverSnapshot, setProfile;
  unfold onSnapshotNext, onSnapshotError,
    requestMediaLibraryPermissionsAsync, launchImageLibraryAsync, fetchBlob,
    uploadBytes, getDownloadURL, addDoc, updateDoc, alert, consoleError;
  unfold mbind, mret;
  repeat progress
    (unfold M_bind, M_ret, try_catch, await, gets, modify, call;
     cbn [after settled final calls negb orb canceled assets uri app
          ui remote collection bucket with_ui with_remote
          set_collection set_bucket set_profile set_chores set_loadingChores
          set_newChoreTitle set_assignee chores loadingChores newChoreTitle
          assignee profile]).

(** Split on the next answer that the run waits for, in program order. *)
Ltac settle1 :=
  match goal with
  | |- context [env_permission ?e] =>
      destruct (env_permission e) as [[]|] eqn:?
  | |- context [env_picker ?e] =>
      destruct (env_picker e) as [[[] [[|? ?]|]]|] eqn:?
  | |- context [env_fetch ?e ?u] => destruct (env_fetch e u) eqn:?
  | |- context [env_uploadBytes ?e ?p] =>
      destruct (env_uploadBytes e p) as [[]|] eqn:?
  | |- context [env_getDownloadURL ?e ?p] =>
      destruct (env_getDownloadURL e p) eqn:?
  | |- context [env_addDoc ?e] => destruct (env_addDoc e) eqn:?
  | |- context [env_updateDoc ?e] =>
      destruct (env_updateDoc e) as [[]|] eqn:?
  | |- context [match ?m !! ?k with _ => _ end] => destruct (m !! k) eqn:?
  end.

(** All the ways one run can go. *)
Ltac settle := run; repeat (settle1; run).

(** Membership in a list that evaluates to its elements. *)
Ltac in_list :=
  vm_compute;
  repeat (first [apply list_elem_of_here | apply list_elem_of_further]).

(** ** Sync Engine *)

(** C9: when the subscription signals an error, the held chore list is the
    one held before (it is neither cleared nor replaced), one notice,
    "Sync error", is raised to the user, and the spinner is taken away: with
    a profile in use, the screen shows the cards of the chores held before,
    all of them to a parent and to a child those assigned to them, and the
    text for an empty list only where that list is empty. *)
Theorem onSnapshotError_keeps_chores (error : string) (w : World) :
  let r := onSnapshotError error w in
  let s := ui (final r) in
  chores s = chores (ui w)
  ∧ loadingChores s = false
  ∧ (profile s, loadingProfile s) = (profile (ui w), loadingProfile (ui w))
  ∧ filter isAlert (calls r)
    = [Alert_alert "Sync error" "Could not subscribe to chores updates."]
  ∧ remote (final r) = remote w
  ∧ settled r = Resolved tt
  ∧ ∀ (p : Profile.t) (view : list Chore.t),
      profile (ui w) = Some p →
      loadingProfile (ui w) = false →
      projectView p (chores (ui w)) = Resolved view →
      render s
      = Resolved (MainScreen
          ("Hi, " +:+ Profile.displayName p)
          (toUpperCase (Profile.familyCode p))
          (match Profile.role p with
           | parent =>
               inl {| titleInput := newChoreTitle (ui w);
                      assigneeInput := assignee (ui w);
                      familyChores :=
                        flatList
                          ((λ item, ChoreCard item parent false) <$> view)
                          "No chores yet. Add one above." |}
           | child =>
               inr (flatList
                      ((λ item, ChoreCard item child true) <$> view)
                      "No chores assigned to you yet.")
           end)).
Proof.
  run. split_and!; try done.
  intros p view Hp Hl Hv. unfold render, projectView in *. simpl.
  rewrite Hp, Hl. destruct (childChores (Some p) _) as [cc|e]; [|done].
  destruct (Profile.role p); simpl in *; by simplify_eq.
Qed.

Lemma onSnapshotError_keeps_chores_witness :
  profile (ui samSubscribing) = Some sam
  ∧ loadingProfile (ui samSubscribing) = false
  ∧ projectView sam (chores (ui samSubscribing))
    = Resolved [toChore ("c4", shoes); dishesChore]
  ∧ render (ui samSubscribing)
    = Resolved (MainScreen "Hi, Sam" (toUpperCase "abc12")
        (inr ActivityIndicator))
  ∧ render (ui (final (onSnapshotError "offline" samSubscribing)))
    = Resolved (MainScreen "Hi, Sam" (toUpperCase "abc12")
        (inr (FlatList
           ((λ item, ChoreCard item child true)
              <$> [toChore ("c4", shoes); dishesChore])))).
Proof.
  split; [reflexivity|]. split; [reflexivity|].
  assert (Hv : projectView sam (chores (ui samSubscribing))
               = Resolved [toChore ("c4", shoes); dishesChore]).
  { reflexivity. }
  split; [exact Hv|]. split; [reflexivity|].
  destruct (onSnapshotError_keeps_chores "offline" samSubscribing)
    as (_ & _ & _ & _ & _ & _ & H).
  exact (H sam _ eq_refl eq_refl Hv).
Defined.

(** The query returns documents of the collection only: those that pass
    the [where] filter and have the [orderBy] field. *)
Lemma elem_of_insert_desc field (d x : DocSnap) (l : list DocSnap) :
  x ∈ insert_desc field d l ↔ x = d ∨ x ∈ l.
Proof.
  induction l as [|e l IH]; simpl.
  - rewrite list_elem_of_singleton. set_solver.
  - destruct (d.2 !! field), (e.2 !! field);
      try destruct (value_leb _ _); set_solver.
Qed.

Lemma elem_of_orderBy_desc field (x : DocSnap) (l : list DocSnap) :
  x ∈ orderBy_desc field l ↔ x ∈ l ∧ is_Some (x.2 !! field).
Proof.
  unfold orderBy_desc.
  induction l as [|e l IH]; simpl.
  - set_solver.
  - rewrite filter_cons. destruct (decide (is_Some (e.2 !! field))); simpl.
    + rewrite elem_of_insert_desc, IH. set_solver.
    + rewrite IH. set_solver.
Qed.

Lemma elem_of_familyQuery (p : Profile.t) (coll : gmap string DocumentData)
    (id : string) (data : DocumentData) :
  (id, data) ∈ familyQuery p coll ↔
    coll !! id = Some data
    ∧ data !! "familyCode" = Some (VStr (Profile.familyCode p))
    ∧ is_Some (data !! "createdAt").
Proof.
  unfold familyQuery.
  rewrite elem_of_orderBy_desc, list_elem_of_filter.
  rewrite (elem_of_map_to_list coll id data).
  unfold where_eq. simpl. rewrite bool_decide_spec. tauto.
Qed.

Lemma value_leb_total (a b : value) : value_leb a b ∨ value_leb b a.
Proof.
  destruct a as [|x|x|x|x], b as [|y|y|y|y]; simpl; auto.
  - destruct x, y; simpl; auto.
  - destruct (Z.leb_spec x y), (Z.leb_spec y x); simpl; auto. lia.
  - destruct (Z.leb_spec x y), (Z.leb_spec y x); simpl; auto. lia.
  - destruct (String.leb_total x y) as [->| ->]; simpl; auto.
Qed.

Lemma insert_desc_sorted field (d : DocSnap) (l : list DocSnap) :
  is_Some (d.2 !! field) →
  Forall (λ e : DocSnap, is_Some (e.2 !! field)) l →
  Sorted (desc_on field) l →
  Sorted (desc_on field) (insert_desc field d l).
Proof.
  intros [x Hx] Hall Hs. induction Hs as [|e l Hs IH Hhd]; simpl.
  - repeat constructor.
  - apply Forall_cons in Hall as [[y Hy] Hall]. rewrite Hx, Hy.
    destruct (value_leb y x) eqn:Hle.
    + constructor; [by constructor|]. constructor.
      exists x, y. by rewrite Hle.
    + constructor; [by apply IH|].
      assert (Hde : desc_on field e d).
      { exists y, x. split_and!; [done..|].
        destruct (value_leb_total x y) as [H|H]; [done|].
        by rewrite Hle in H. }
      destruct Hhd as [|e' l' He']; simpl; [by constructor|].
      destruct He' as (y' & z & Hy' & Hz & Hzy).
      rewrite Hx, Hz. destruct (value_leb z x); constructor; [done|].
      exists y', z. done.
Qed.

Lemma orderBy_desc_sorted field (l : list DocSnap) :
  Sorted (desc_on field) (orderBy_desc field l).
Proof.
  unfold orderBy_desc.
  assert (Hall : Forall (λ e : DocSnap, is_Some (e.2 !! field))
                        (filter (λ d : DocSnap, is_Some (d.2 !! field)) l)).
  { apply Forall_forall. by intros x [? _]%list_elem_of_filter. }
  induction Hall as [|d l' Hd Hall IH]; simpl; [constructor|].
  apply insert_desc_sorted; [done| |done].
  apply Forall_forall. intros x Hx. clear IH.
  induction Hall as [|e l'' He Hall IH]; simpl in Hx.
  - by apply elem_of_nil in Hx.
  - apply elem_of_insert_desc in Hx as [->|Hx]; auto.
Qed.

(** The snapshot is ordered on [createdAt], newest first. *)
Lemma familyQuery_sorted (p : Profile.t) (coll : gmap string DocumentData) :
  Sorted (desc_on "createdAt") (familyQuery p coll).
Proof. apply orderBy_desc_sorted. Qed.

(** C3: after a snapshot delivery of the subscription of the active
    profile, every chore held has the family code of that profile: the
    query lets through only documents whose [familyCode] equals it. *)
Theorem deliverSnapshot_familyCode (w : World) (p : Profile.t)
    (coll : gmap string DocumentData) :
  profile (ui w) = Some p →
  Forall (λ c, Chore.familyCode c = VStr (Profile.familyCode p))
         (chores (ui (final (deliverSnapshot coll w)))).
Proof.
  intros Hp. run. rewrite Hp. run.
  apply Forall_fmap, Forall_forall. intros [id data] Hin.
  apply elem_of_familyQuery in Hin as (_ & Hfc & _).
  unfold toChore. simpl. by rewrite Hfc.
Qed.

Lemma deliverSnapshot_familyCode_witness :
  profile (ui samWorld) = Some sam
  ∧ Forall (λ c, Chore.familyCode c = VStr "abc12")
      (chores (ui (final (deliverSnapshot someChores samWorld)))).
Proof.
  split; [reflexivity|].
  apply (deliverSnapshot_familyCode samWorld sam someChores). reflexivity.
Defined.

(** C10, as amended: a title that is absent or [null] in the record is
    replaced by "Untitled chore" and a title that is present is kept as it
    is, so a held chore has an empty title only when the title of its
    record is the empty string. *)
Theorem onSnapshotNext_title (snapshot : list DocSnap) (w : World)
    (c : Chore.t) :
  c ∈ chores (ui (final (onSnapshotNext snapshot w))) →
  ∃ d, d ∈ snapshot ∧ c = toChore d
    ∧ match d.2 !! "title" with
      | None | Some VNull => Chore.title c = VStr "Untitled chore"
      | Some v => Chore.title c = v
      end
    ∧ (d.2 !! "title" ≠ Some (VStr "") → Chore.title c ≠ VStr "").
Proof.
  run. intros (d & -> & Hd)%list_elem_of_fmap.
  exists d. split_and!; [done..| |]; unfold toChore; simpl;
    destruct (d.2 !! "title") as [[]|]; simpl; congruence.
Qed.

(** C10 as stated fails: the record "c2" has the empty string for title,
    the query delivers it, and the chore held for it has the empty title:
    [""] is not nullish, so [??] keeps it. *)
Lemma held_title_empty_counterexample :
  ∃ c, c ∈ chores (ui (final (deliverSnapshot someChores patWorld)))
       ∧ Chore.id c = "c2" ∧ Chore.title c = VStr "".
Proof.
  exists (toChore ("c2", blankTitle)). split; [|split; reflexivity].
  in_list.
Qed.

Lemma onSnapshotNext_title_witness :
  toChore untitled
    ∈ chores (ui (final (onSnapshotNext [untitled] patWorld)))
  ∧ ∃ d, d ∈ [untitled] ∧ toChore untitled = toChore d
    ∧ match d.2 !! "title" with
      | None | Some VNull =>
          Chore.title (toChore untitled) = VStr "Untitled chore"
      | Some v => Chore.title (toChore untitled) = v
      end
    ∧ (d.2 !! "title" ≠ Some (VStr "")
       → Chore.title (toChore untitled) ≠ VStr "").
Proof.
  assert (H : toChore untitled
    ∈ chores (ui (final (onSnapshotNext [untitled] patWorld)))).
  { in_list. }
  split; [exact H|].
  exact (onSnapshotNext_title [untitled] patWorld (toChore untitled) H).
Defined.

(** ** View Projector *)

Lemma filterThrowing_total {A} (f : A → outcome bool) (g : A → bool)
    (l : list A) :
  Forall (λ x, f x = Resolved (g x)) l →
  filterThrowing f l = Resolved (filter g l).
Proof.
  induction 1 as [|x l Hx _ IH]; simpl; [done|].
  rewrite Hx, IH, filter_cons. by destruct (g x).
Qed.

(** For a parent the projection is the chore list itself, whatever the
    list holds. *)
Lemma projectView_parent (p : Profile.t) (chores : list Chore.t) :
  Profile.role p = parent → projectView p chores = Resolved chores.
Proof.
  intros Hr. unfold projectView, childChores. rewrite Hr. reflexivity.
Qed.

(** C2: on a chore list whose [assignedTo] fields are strings, as
    [types.ts] declares, the projection for a child is the sublist of
    exactly the chores whose [assignedTo], lower-cased and trimmed, equals
    the profile's [displayName], lower-cased and trimmed; the projection
    for a parent is the identity. *)
Theorem projectView_spec (p : Profile.t) (chores : list Chore.t) :
  Forall (λ c, Chore.isString (Chore.assignedTo c)) chores →
  match Profile.role p with
  | parent => projectView p chores = Resolved chores
  | child =>
      ∃ shown, projectView p chores = Resolved shown
        ∧ shown = filter (assignedToProfile p) chores
        ∧ shown `sublist_of` chores
        ∧ ∀ c, c ∈ shown ↔ c ∈ chores ∧ assignedToProfile p c
  end.
Proof.
  intros Hty. destruct (Profile.role p) eqn:Hr.
  - by apply projectView_parent.
  - exists (filter (assignedToProfile p) chores). split_and!.
    + unfold projectView, childChores. rewrite Hr. simpl.
      erewrite filterThrowing_total; [reflexivity|].
      eapply Forall_impl; [exact Hty|]. intros c Hc. simpl.
      unfold assignedToProfile. simpl in Hc.
      destruct (Chore.assignedTo c); simpl in *; try done.
      f_equal. apply bool_decide_ext. split; congruence.
    + reflexivity.
    + apply sublist_filter.
    + intros c. rewrite list_elem_of_filter. tauto.
Qed.

Lemma projectView_spec_witness :
  Forall (λ c, Chore.isString (Chore.assignedTo c)) held
  ∧ ∃ shown, projectView sam held = Resolved shown
      ∧ shown = filter (assignedToProfile sam) held
      ∧ shown `sublist_of` held
      ∧ ∀ c, c ∈ shown ↔ c ∈ held ∧ assignedToProfile sam c.
Proof.
  assert (H : Forall (λ c, Chore.isString (Chore.assignedTo c)) held).
  { repeat constructor. }
  split; [exact H|]. exact (projectView_spec sam held H).
Defined.

(** ** Upload Coordinator *)

Lemma append_assoc (a b c : string) : (a +:+ b) +:+ c = a +:+ b +:+ c.
Proof.
  induction a as [|x a IH]; [done|].
  change (String x ((a +:+ b) +:+ c) = String x (a +:+ b +:+ c)).
  by rewrite IH.
Qed.

(** The path of the code is the path of the design with ".jpg" appended. *)
Lemma proofPath_spec (p : Profile.t) (chore : Chore.t) (now : Z) :
  proofPath p chore now
  = specProofPath (Profile.familyCode p) (Chore.id chore) now +:+ ".jpg".
Proof. unfold proofPath, specProofPath. by rewrite !append_assoc. Qed.

(** C7: when access to the photo library is denied, the pipeline stops
    with the notice "Permission needed"; it uploads nothing, writes
    nothing to the repository and leaves the world as it was. *)
Theorem uploadProof_permission_denied (env : Env) (chore : Chore.t)
    (w : World) (p : Profile.t) :
  profile (ui w) = Some p →
  env_permission env = Resolved false →
  let r := uploadProof env chore w in
  calls r = [RequestMediaLibraryPermissions;
             Alert_alert "Permission needed" "We need access to your photos."]
  ∧ filter isUpload (calls r) = []
  ∧ filter isRepositoryWrite (calls r) = []
  ∧ final r = w
  ∧ settled r = Resolved tt.
Proof.
  intros Hp Hperm. run. rewrite Hp. run. rewrite Hperm. run.
  by destruct w.
Qed.

Lemma uploadProof_permission_denied_witness :
  profile (ui samWorld) = Some sam
  ∧ env_permission permissionDenied = Resolved false
  ∧ let r := uploadProof permissionDenied dishesChore samWorld in
    calls r = [RequestMediaLibraryPermissions;
               Alert_alert "Permission needed"
                           "We need access to your photos."]
    ∧ filter isUpload (calls r) = []
    ∧ filter isRepositoryWrite (calls r) = []
    ∧ final r = samWorld
    ∧ settled r = Resolved tt.
Proof.
  split; [reflexivity|]. split; [reflexivity|].
  apply (uploadProof_permission_denied permissionDenied dishesChore
           samWorld sam); reflexivity.
Defined.

(** C8, as amended: every upload that [uploadProof] requests, and so every
    successful one, goes to the path
    choreProofs/{familyCode}/{choreId}-{uploadTimestamp}.jpg, built from
    the family code of the active profile, the id of the chore and the
    clock alone; when the upload succeeds the bytes are stored there. *)
Theorem uploadProof_path (env : Env) (chore : Chore.t) (w : World)
    (path : string) (blob : Blob) :
  UploadBytes path blob ∈ calls (uploadProof env chore w) →
  ∃ p, profile (ui w) = Some p
    ∧ path = specProofPath (Profile.familyCode p) (Chore.id chore)
                           (env_now env) +:+ ".jpg"
    ∧ (env_uploadBytes env path = Resolved tt →
       bucket (remote (final (uploadProof env chore w))) !! path
       = Some blob).
Proof.
  run. destruct (profile (ui w)) as [p|]; [|by intros ?%elem_of_nil].
  intros H. exists p. split; [done|]. rewrite <- proofPath_spec. revert H.
  settle.
  all: rewrite ?elem_of_cons, ?elem_of_nil.
  all: intros Hin; destruct_or?; simplify_eq.
  all: split; [reflexivity|]; intros; (apply lookup_insert_eq || congruence).
Qed.

Lemma uploadProof_path_witness :
  UploadBytes "choreProofs/abc12/c1-1700000000123.jpg" []
    ∈ calls (uploadProof allWell dishesChore samWorld)
  ∧ ∃ p, profile (ui samWorld) = Some p
      ∧ "choreProofs/abc12/c1-1700000000123.jpg"
        = specProofPath (Profile.familyCode p)
            (Chore.id dishesChore) (env_now allWell) +:+ ".jpg"
      ∧ (env_uploadBytes allWell "choreProofs/abc12/c1-1700000000123.jpg"
         = Resolved tt →
         bucket (remote (final (uploadProof allWell dishesChore samWorld)))
           !! "choreProofs/abc12/c1-1700000000123.jpg" = Some []).
Proof.
  assert (H : UploadBytes "choreProofs/abc12/c1-1700000000123.jpg" []
    ∈ calls (uploadProof allWell dishesChore samWorld)).
  { in_list. }
  split; [exact H|].
  exact (uploadProof_path allWell dishesChore samWorld _ _ H).
Defined.

(** C8 as stated fails: with every collaborator answering well, the one
    upload of the run goes to a path that ends in ".jpg", which is not the
    path choreProofs/{familyCode}/{choreId}-{uploadTimestamp}. *)
Lemma uploadProof_path_counterexample :
  settled (uploadProof allWell dishesChore samWorld) = Resolved tt
  ∧ filter isUpload (calls (uploadProof allWell dishesChore samWorld))
    = [UploadBytes "choreProofs/abc12/c1-1700000000123.jpg" []]
  ∧ specProofPath "abc12" "c1" 1700000000123
    = "choreProofs/abc12/c1-1700000000123"
  ∧ UploadBytes (specProofPath "abc12" "c1" 1700000000123) []
    ∉ calls (uploadProof allWell dishesChore samWorld).
Proof.
  split_and!; [reflexivity..|].
  vm_compute. intros H.
  repeat (apply elem_of_cons in H as [H|H]; [discriminate H|]).
  by apply elem_of_nil in H.
Qed.



(** The record that the completion write leaves: the four fields are
    set, every other field is that of the record before. *)
Lemma completion_merge (t : Z) (url name : string) (old : DocumentData) :
  let new := resolveData t (list_to_map
               [("status", Lit (VStr "completed"));
                ("photoUrl", Lit (VStr url));
                ("completedBy", Lit (VStr name));
                ("completedAt", ServerTimestamp)]) ∪ old in
  (∀ k, k ∉ completionKeys → new !! k = old !! k)
  ∧ new !! "status" = Some (VStr "completed")
  ∧ new !! "photoUrl" = Some (VStr url)
  ∧ new !! "completedBy" = Some (VStr name)
  ∧ new !! "completedAt" = Some (VTimestamp t).
Proof.
  unfold resolveData, list_to_map. cbn [foldr fst snd].
  split_and!.
  - intros k Hk. unfold completionKeys in Hk.
    rewrite !not_elem_of_cons in Hk. destruct Hk as (?&?&?&?&_).
    rewrite lookup_union, lookup_fmap.
    do 4 (rewrite lookup_insert_ne; [|congruence]). rewrite lookup_empty.
    by destruct (old !! k).
  - rewrite lookup_union, lookup_fmap, lookup_insert_eq.
    by destruct (old !! _).
  - rewrite lookup_union, lookup_fmap.
    do 1 (rewrite lookup_insert_ne; [|done]). rewrite lookup_insert_eq.
    by destruct (old !! _).
  - rewrite lookup_union, lookup_fmap.
    do 2 (rewrite lookup_insert_ne; [|done]). rewrite lookup_insert_eq.
    by destruct (old !! _).
  - rewrite lookup_union, lookup_fmap.
    do 3 (rewrite lookup_insert_ne; [|done]). rewrite lookup_insert_eq.
    by destruct (old !! _).
Qed.

(** C5: when the pipeline reaches its last stage, the update it requests
    is for the chore's own record and carries exactly the four fields
    [status] = "completed", [photoUrl] = the retrieval URL, [completedBy] =
    the profile's display name and [completedAt] = the server's clock;
    every other field of that record, and every other record, is as it
    was. *)
Theorem uploadProof_update_frame (env : Env) (chore : Chore.t) (w : World)
    (id : string) (data : WriteData) :
  UpdateDoc id data ∈ calls (uploadProof env chore w) →
  let coll := collection (remote w) in
  let coll' := collection (remote (final (uploadProof env chore w))) in
  ∃ p url,
    profile (ui w) = Some p
    ∧ env_getDownloadURL env (proofPath p chore (env_now env)) = Resolved url
    ∧ id = Chore.id chore
    ∧ data = list_to_map
               [("status", Lit (VStr "completed"));
                ("photoUrl", Lit (VStr url));
                ("completedBy", Lit (VStr (Profile.displayName p)));
                ("completedAt", ServerTimestamp)]
    ∧ (∀ id', id' ≠ id → coll' !! id' = coll !! id')
    ∧ (∀ old, coll !! id = Some old →
       ∃ new, coll' !! id = Some new
         ∧ (∀ k, k ∉ completionKeys → new !! k = old !! k)
         ∧ (env_updateDoc env = Resolved tt →
            new !! "status" = Some (VStr "completed")
            ∧ new !! "photoUrl" = Some (VStr url)
            ∧ new !! "completedBy" = Some (VStr (Profile.displayName p))
            ∧ new !! "completedAt"
              = Some (VTimestamp (env_serverTime env)))).
Proof.
  run. destruct (profile (ui w)) as [p|]; [|by intros ?%elem_of_nil].
  settle.
  all: rewrite ?elem_of_cons, ?elem_of_nil.
  all: intros Hin; destruct_or?; simplify_eq.
  all: eexists p, _; split_and!; try done.
  all: try (intros id' Hid'; by rewrite lookup_insert_ne).
  all: intros old Hold; simplify_eq.
  - eexists. split; [apply lookup_insert_eq|].
    edestruct completion_merge as (Hframe & Hset).
    split; [exact Hframe|]. intros _. exact Hset.
  - eexists. split_and!; [done..|]. intros; congruence.
Qed.

Lemma uploadProof_update_frame_witness :
  UpdateDoc "c1" dishesDone ∈ calls (uploadProof allWell dishesChore samWorld)
  ∧ ∃ p url,
      profile (ui samWorld) = Some p
      ∧ env_getDownloadURL allWell
          (proofPath p dishesChore (env_now allWell)) = Resolved url
      ∧ "c1" = Chore.id dishesChore
      ∧ dishesDone = list_to_map
          [("status", Lit (VStr "completed")); ("photoUrl", Lit (VStr url));
           ("completedBy", Lit (VStr (Profile.displayName p)));
           ("completedAt", ServerTimestamp)]
      ∧ (∀ id', id' ≠ "c1" →
         collection (remote (final (uploadProof allWell dishesChore
                                      samWorld))) !! id'
         = collection (remote samWorld) !! id')
      ∧ (∀ old, collection (remote samWorld) !! "c1" = Some old →
         ∃ new,
           collection (remote (final (uploadProof allWell dishesChore
                                        samWorld))) !! "c1" = Some new
           ∧ (∀ k, k ∉ completionKeys → new !! k = old !! k)
           ∧ (env_updateDoc allWell = Resolved tt →
              new !! "status" = Some (VStr "completed")
              ∧ new !! "photoUrl" = Some (VStr url)
              ∧ new !! "completedBy" = Some (VStr (Profile.displayName p))
              ∧ new !! "completedAt"
                = Some (VTimestamp (env_serverTime allWell)))).
Proof.
  assert (H : UpdateDoc "c1" dishesDone
                ∈ calls (uploadProof allWell dishesChore samWorld)).
  { in_list. }
  split; [exact H|].
  exact (uploadProof_update_frame allWell dishesChore samWorld "c1"
           dishesDone H).
Defined.

(** ** Create chore *)

Lemma truthy_false (s : string) : Js.truthy s = false ↔ s = "".
Proof. by destruct s. Qed.

(** What the server stores for the payload of [addChore]. *)
Lemma resolve_newChore (t : Z) (title who familyCode : string) :
  resolveData t (list_to_map
    [("title", Lit (VStr title)); ("assignedTo", Lit (VStr who));
     ("familyCode", Lit (VStr familyCode)); ("status", Lit (VStr "pending"));
     ("photoUrl", Lit VNull); ("createdAt", ServerTimestamp)])
  = doc [("title", VStr title); ("assignedTo", VStr who);
         ("familyCode", VStr familyCode); ("status", VStr "pending");
         ("photoUrl", VNull); ("createdAt", VTimestamp t)].
Proof.
  unfold resolveData, doc, list_to_map. cbn [foldr fst snd].
  by rewrite !fmap_insert, fmap_empty.
Qed.

(** C6: with an active profile, when the title and the assignee are both
    non-blank after trimming, [addChore] requests exactly one write, an
    [addDoc] of the trimmed title and assignee, the profile's family code,
    status "pending" and [photoUrl] null; when the server takes it, the
    collection gains exactly that one record under the new id.  When
    either input is blank after trimming, nothing is written. *)
Theorem addChore_spec (env : Env) (w : World) (p : Profile.t) :
  profile (ui w) = Some p →
  let title := Js.trim (newChoreTitle (ui w)) in
  let who := Js.trim (assignee (ui w)) in
  let r := addChore env w in
  let coll := collection (remote w) in
  let coll' := collection (remote (final r)) in
  (title = "" ∨ who = "" →
     filter isRepositoryWrite (calls r) = [] ∧ remote (final r) = remote w)
  ∧ (title ≠ "" ∧ who ≠ "" →
     filter isRepositoryWrite (calls r)
     = [AddDoc (list_to_map
          [("title", Lit (VStr title)); ("assignedTo", Lit (VStr who));
           ("familyCode", Lit (VStr (Profile.familyCode p)));
           ("status", Lit (VStr "pending")); ("photoUrl", Lit VNull);
           ("createdAt", ServerTimestamp)])]
     ∧ match env_addDoc env with
       | Resolved id =>
           coll !! id = None →
           coll' = <[id := doc
                      [("title", VStr title); ("assignedTo", VStr who);
                       ("familyCode", VStr (Profile.familyCode p));
                       ("status", VStr "pending"); ("photoUrl", VNull);
                       ("createdAt", VTimestamp (env_serverTime env))]]>
                     coll
       | Rejected _ => coll' = coll
       end).
Proof.
  intros Hp title who. run. rewrite Hp.
  fold title who.
  destruct (Js.truthy title) eqn:Ht, (Js.truthy who) eqn:Hw; run.
  all: try apply truthy_false in Ht; try apply truthy_false in Hw.
  all: split; [intros Hblank|intros [Ht' Hw']]; try congruence.
  all: try (split; [reflexivity|by destruct w]).
  - destruct Hblank as [E|E]; rewrite E in *; discriminate.
  - unfold title, who. settle; (split; [reflexivity|]).
    + intros; congruence.
    + intros _. by rewrite resolve_newChore.
    + reflexivity.
Qed.

Lemma addChore_spec_witness :
  profile (ui patWorld) = Some pat
  ∧ ("Trash" ≠ "" ∧ "Alex" ≠ "")
  ∧ filter isRepositoryWrite (calls (addChore allWell patWorld))
    = [AddDoc (list_to_map
         [("title", Lit (VStr "Trash")); ("assignedTo", Lit (VStr "Alex"));
          ("familyCode", Lit (VStr "abc12"));
          ("status", Lit (VStr "pending")); ("photoUrl", Lit VNull);
          ("createdAt", ServerTimestamp)])]
  ∧ (someChores !! "c9" = None →
     collection (remote (final (addChore allWell patWorld)))
     = <["c9" := doc
          [("title", VStr "Trash"); ("assignedTo", VStr "Alex");
           ("familyCode", VStr "abc12"); ("status", VStr "pending");
           ("photoUrl", VNull); ("createdAt", VTimestamp 4000)]]>
         someChores).
Proof.
  assert (Hp : profile (ui patWorld) = Some pat) by reflexivity.
  assert (Hne : "Trash" ≠ "" ∧ "Alex" ≠ "") by (split; discriminate).
  split; [exact Hp|]. split; [exact Hne|].
  exact (proj2 (addChore_spec allWell patWorld pat Hp) Hne).
Defined.

(** ** Status transitions *)

(** What one step does to one record: nothing, or it creates the record
    with status "pending", or it sets the status of the record, which was
    there, to "completed". *)
Lemma step_record (w w' : World) (id : string) :
  step w w' →
  collection (remote w') !! id = collection (remote w) !! id
  ∨ (collection (remote w) !! id = None
     ∧ pending (collection (remote w')) id)
  ∨ (is_Some (collection (remote w) !! id)
     ∧ completed (collection (remote w')) id).
Proof.
  destruct 1 as [env w|env chore w|coll w|error w|title who w|p w].
  - run. destruct (profile (ui w)) as [p|]; [|by left].
    destruct (negb _ || negb _); settle; try by left.
    destruct (decide (a = id)) as [->|Hne].
    + right; left. split; [done|]. eexists. split; [apply lookup_insert_eq|].
      by rewrite resolve_newChore.
    + left. by rewrite lookup_insert_ne.
  - run. destruct (profile (ui w)) as [p|]; [|by left].
    settle; try by left.
    destruct (decide (Chore.id chore = id)) as [<-|Hne].
    + right; right. split; [done|]. eexists.
      split; [apply lookup_insert_eq|]. apply completion_merge.
    + left. by rewrite lookup_insert_ne.
  - left. run. by destruct (profile (ui w)).
  - by left.
  - by left.
  - left. run. by destruct p.
Qed.

Lemma completed_step (w w' : World) (id : string) :
  step w w' →
  completed (collection (remote w)) id →
  completed (collection (remote w')) id.
Proof.
  intros Hstep Hc.
  destruct (step_record w w' id Hstep) as [Heq|[[Hnone _]|[_ Hdone]]].
  - destruct Hc as (d & Hd & Hs). exists d. by rewrite Heq.
  - destruct Hc as (d & Hd & _). congruence.
  - exact Hdone.
Qed.

(** C1: over any sequence of steps, a record that has status "completed"
    keeps it and is never pending again: a create only adds a record
    under a new id, with status "pending", and the only status that the
    upload pipeline writes is "completed". *)
Theorem completed_stays (w w' : World) (id : string) :
  rtc step w w' →
  completed (collection (remote w)) id →
  completed (collection (remote w')) id
  ∧ ¬ pending (collection (remote w')) id.
Proof.
  intros Hsteps Hc.
  assert (Hc' : completed (collection (remote w')) id).
  { induction Hsteps as [w|w w1 w' Hstep _ IH]; [done|].
    eauto using completed_step. }
  split; [exact Hc'|].
  destruct Hc' as (d & Hd & Hs). intros (d' & Hd' & Hs'). congruence.
Qed.

Lemma completed_stays_witness :
  rtc step samWorld
      (final (addChore allWell
                (final (uploadProof allWell dishesChore samWorld))))
  ∧ completed (collection (remote samWorld)) "c3"
  ∧ completed (collection (remote (final (addChore allWell
                 (final (uploadProof allWell dishesChore samWorld)))))) "c3"
  ∧ ¬ pending (collection (remote (final (addChore allWell
                 (final (uploadProof allWell dishesChore samWorld)))))) "c3".
Proof.
  assert (Hsteps : rtc step samWorld
      (final (addChore allWell
                (final (uploadProof allWell dishesChore samWorld))))).
  { eapply rtc_l; [apply step_uploadProof|].
    eapply rtc_l; [apply step_addChore|]. apply rtc_refl. }
  assert (Hc : completed (collection (remote samWorld)) "c3").
  { exists laundry. split; reflexivity. }
  split; [exact Hsteps|]. split; [exact Hc|].
  exact (completed_stays _ _ "c3" Hsteps Hc).
Defined.

(** ** The scenarios of the design document, run *)

Example trim_example : Js.trim "  Trash " = "Trash".
Proof. reflexivity. Qed.

Example toLowerCase_example : Js.toLowerCase "  SAM " = "  sam ".
Proof. reflexivity. Qed.

(** The snapshot comes newest first, without the record of the other
    family, and [held] is what a device holds for it. *)
Example snapshot_example :
  chores (ui (final (deliverSnapshot someChores samWorld))) = held
  ∧ Chore.id <$> held = ["c4"; "c2"; "c1"].
Proof. split; vm_compute; reflexivity. Qed.

(** Child "Sam" sees "Dishes" and "Shoes" (assigned to "  SAM "), child
    "Alex" does not; the parent sees all. *)
Example sam_sees :
  projectView sam held = Resolved [toChore ("c4", shoes); dishesChore].
Proof. reflexivity. Qed.

Example alex_sees :
  projectView alex held = Resolved [toChore ("c2", blankTitle)].
Proof. reflexivity. Qed.

Example pat_sees : projectView pat held = Resolved held.
Proof. reflexivity. Qed.

(** A record whose [assignedTo] is a number makes the child's projection
    throw; the parent's does not look at it. *)
Example number_assignee :
  projectView sam [toChore ("c5", doc [("assignedTo", VNum 7)])]
  = Rejected "TypeError: chore.assignedTo?.toLowerCase is not a function"
  ∧ projectView pat [toChore ("c5", doc [("assignedTo", VNum 7)])]
    = Resolved [toChore ("c5", doc [("assignedTo", VNum 7)])].
Proof. split; reflexivity. Qed.

(** The parent creates the chore typed in: one record more, pending,
    without a photo, and the inputs are cleared. *)
Example create_example :
  let r := addChore allWell patWorld in
  settled r = Resolved tt
  ∧ fieldsOf (collection (remote (final r))) "c9"
      ["title"; "assignedTo"; "familyCode"; "status"; "photoUrl";
       "createdAt"; "completedBy"]
    = [Some (VStr "Trash"); Some (VStr "Alex"); Some (VStr "abc12");
       Some (VStr "pending"); Some VNull; Some (VTimestamp 4000); None]
  ∧ newChoreTitle (ui (final r)) = "" ∧ assignee (ui (final r)) = "".
Proof. split_and!; vm_compute; reflexivity. Qed.

(** Sam proves "Dishes": the record is completed by "Sam" with the URL of
    the photo, and keeps its title, assignee, family code and creation
    time. *)
Example upload_example :
  let r := uploadProof allWell dishesChore samWorld in
  calls r
  = [RequestMediaLibraryPermissions; LaunchImageLibrary;
     Fetch "file:///photo.jpg";
     UploadBytes "choreProofs/abc12/c1-1700000000123.jpg" [];
     GetDownloadURL "choreProofs/abc12/c1-1700000000123.jpg";
     UpdateDoc "c1" dishesDone]
  ∧ fieldsOf (collection (remote (final r))) "c1"
      ["title"; "assignedTo"; "familyCode"; "status"; "photoUrl";
       "createdAt"; "completedBy"; "completedAt"]
    = [Some (VStr "Dishes"); Some (VStr "Sam"); Some (VStr "abc12");
       Some (VStr "completed");
       Some (VStr "https://storage/choreProofs/abc12/c1-1700000000123.jpg");
       Some (VTimestamp 1000); Some (VStr "Sam"); Some (VTimestamp 4000)].
Proof. split; vm_compute; reflexivity. Qed.

(** The user cancels the picker: nothing is written, nothing is
    reported. *)
Example cancel_example :
  let env := answers (Resolved true) (Resolved tt) (λ _, Rejected "")
                     (Resolved "c9") (Resolved tt) in
  let canceledEnv :=
    {| env_permission := env_permission env;
       env_picker := Resolved {| canceled := true; assets := None |};
       env_fetch := env_fetch env; env_now := env_now env;
       env_uploadBytes := env_uploadBytes env;
       env_getDownloadURL := env_getDownloadURL env;
       env_addDoc := env_addDoc env; env_updateDoc := env_updateDoc env;
       env_serverTime := env_serverTime env |} in
  let r := uploadProof canceledEnv dishesChore samWorld in
  calls r = [RequestMediaLibraryPermissions; LaunchImageLibrary]
  ∧ final r = samWorld ∧ settled r = Resolved tt.
Proof. split_and!; reflexivity. Qed.

(** * More of App.tsx *)

(** ** JavaScript strings *)

Lemma trimStart_clean s : startsClean (Js.trimStart s).
Proof.
  induction s as [|c s IH]; simpl; [done|].
  destruct (Js.isWhiteSpace c) eqn:Hc; simpl; done.
Qed.

Lemma trimStart_id s : startsClean s → Js.trimStart s = s.
Proof. destruct s as [|c s]; simpl; [done|]. by intros ->. Qed.

Lemma trimEnd_clean s : startsClean s → startsClean (Js.trimEnd s).
Proof.
  destruct s as [|c s]; simpl; [done|]. intros Hc.
  destruct (Js.trimEnd s); simpl; [by rewrite Hc|done].
Qed.

Lemma trimEnd_idem s : Js.trimEnd (Js.trimEnd s) = Js.trimEnd s.
Proof.
  induction s as [|c s IH]; simpl; [done|].
  destruct (Js.trimEnd s) as [|c' t] eqn:Ht.
  - destruct (Js.isWhiteSpace c) eqn:Hc; simpl; [done|]. by rewrite Hc.
  - simpl. simpl in IH. by rewrite IH.
Qed.

Lemma trim_idem s : Js.trim (Js.trim s) = Js.trim s.
Proof.
  unfold Js.trim.
  rewrite (trimStart_id (Js.trimEnd _)).
  - apply trimEnd_idem.
  - apply trimEnd_clean, trimStart_clean.
Qed.

Lemma trimEnd_empty s : Js.trimEnd s = "" ↔ blank s.
Proof.
  induction s as [|c s IH]; simpl; [done|].
  destruct (Js.trimEnd s) eqn:Ht.
  - destruct (Js.isWhiteSpace c); simpl; [|done].
    split; [intros _; by apply IH|done].
  - destruct (Js.isWhiteSpace c); simpl; [|done].
    split; [done|]. intros Hb. by apply IH in Hb.
Qed.

Lemma trimStart_blank s : blank (Js.trimStart s) = blank s.
Proof.
  induction s as [|c s IH]; simpl; [done|].
  destruct (Js.isWhiteSpace c) eqn:Hc; simpl; [done|]. by rewrite Hc.
Qed.

Lemma trim_empty s : Js.trim s = "" ↔ blank s.
Proof. unfold Js.trim. by rewrite trimEnd_empty, trimStart_blank. Qed.

Lemma toLowerChar_space c :
  Js.isWhiteSpace (Js.toLowerChar c) = Js.isWhiteSpace c.
Proof. by destruct c as [[] [] [] [] [] [] [] []]. Qed.

Lemma toLowerChar_idem c : Js.toLowerChar (Js.toLowerChar c) = Js.toLowerChar c.
Proof. by destruct c as [[] [] [] [] [] [] [] []]. Qed.

Lemma toLowerCase_idem s :
  Js.toLowerCase (Js.toLowerCase s) = Js.toLowerCase s.
Proof. induction s; simpl; [done|]. by rewrite toLowerChar_idem, IHs. Qed.

Lemma toLowerCase_trimStart s :
  Js.trimStart (Js.toLowerCase s) = Js.toLowerCase (Js.trimStart s).
Proof.
  induction s as [|c s IH]; simpl; [done|].
  rewrite toLowerChar_space. by destruct (Js.isWhiteSpace c).
Qed.

Lemma toLowerCase_trimEnd s :
  Js.trimEnd (Js.toLowerCase s) = Js.toLowerCase (Js.trimEnd s).
Proof.
  induction s as [|c s IH]; simpl; [done|].
  rewrite IH, toLowerChar_space.
  destruct (Js.trimEnd s); simpl; [|done].
  by destruct (Js.isWhiteSpace c).
Qed.

Lemma toLowerCase_trim s :
  Js.trim (Js.toLowerCase s) = Js.toLowerCase (Js.trim s).
Proof.
  unfold Js.trim. by rewrite toLowerCase_trimStart, toLowerCase_trimEnd.
Qed.
Fixpoint endsClean (s : string) : Prop :=
  match s with
  | EmptyString => True
  | String c EmptyString => Js.isWhiteSpace c = false
  | String _ s' => endsClean s'
  end.

Lemma trimEnd_endsClean s : endsClean (Js.trimEnd s).
Proof.
  induction s as [|c s IH]; simpl; [done|].
  destruct (Js.trimEnd s) as [|c' t] eqn:Ht.
  - destruct (Js.isWhiteSpace c) eqn:Hc; simpl; done.
  - exact IH.
Qed.

Lemma trimStart_split s :
  ∃ l, s = l +:+ Js.trimStart s ∧ blank l.
Proof.
  induction s as [|c s (l & Hl & Hb)]; simpl.
  - by exists "".
  - destruct (Js.isWhiteSpace c) eqn:Hc.
    + exists (String c l). split; [|simpl; by rewrite Hc].
      change (String c s = String c (l +:+ Js.trimStart s)).
      by rewrite <- Hl.
    + by exists "".
Qed.

Lemma trimEnd_split s :
  ∃ r, s = Js.trimEnd s +:+ r ∧ blank r.
Proof.
  induction s as [|c s (r & Hr & Hb)]; simpl.
  - by exists "".
  - destruct (Js.trimEnd s) as [|c' t] eqn:Ht.
    + destruct (Js.isWhiteSpace c) eqn:Hc.
      * exists (String c s). split; [done|]. simpl. rewrite Hc. simpl.
        apply trimEnd_empty. by rewrite Ht.
      * exists r. split; [|done].
        change (String c s = String c ("" +:+ r)). by rewrite <- Hr.
    + exists r. split; [|done].
      change (String c s = String c (String c' t +:+ r)). by rewrite <- Hr.
Qed.

Lemma trim_spec s :
  (∃ l r, s = l +:+ Js.trim s +:+ r ∧ blank l ∧ blank r)
  ∧ startsClean (Js.trim s) ∧ endsClean (Js.trim s).
Proof.
  unfold Js.trim. split_and!.
  - destruct (trimStart_split s) as (l & Hl & Hbl).
    destruct (trimEnd_split (Js.trimStart s)) as (r & Hr & Hbr).
    exists l, r. split_and!; [|done..]. by rewrite <- Hr.
  - apply trimEnd_clean, trimStart_clean.
  - apply trimEnd_endsClean.
Qed.

(** ** Upload Coordinator: the other ways a run can go *)

(** X1: when the picker is closed, or returns no asset, the run ends after
    the two requests to the photo library: nothing is uploaded, written or
    reported, and the world is as it was. *)
Theorem uploadProof_canceled (env : Env) (chore : Chore.t) (w : World)
    (p : Profile.t) (r : ImagePickerResult) :
  profile (ui w) = Some p →
  env_permission env = Resolved true →
  env_picker env = Resolved r →
  canceled r = true ∨ assets r = None ∨ assets r = Some [] →
  calls (uploadProof env chore w)
  = [RequestMediaLibraryPermissions; LaunchImageLibrary]
  ∧ final (uploadProof env chore w) = w
  ∧ settled (uploadProof env chore w) = Resolved tt.
Proof.
  intros Hp Hperm Hpick Hr. run. rewrite Hp. run. rewrite Hperm. run.
  rewrite Hpick. run.
  destruct r as [[] [[|a l]|]]; run; try (by destruct w).
  simpl in Hr. destruct_or!; congruence.
Qed.

Lemma uploadProof_canceled_witness :
  profile (ui samWorld) = Some sam
  ∧ env_permission pickerCanceled = Resolved true
  ∧ env_picker pickerCanceled
    = Resolved {| canceled := true; assets := None |}
  ∧ calls (uploadProof pickerCanceled dishesChore samWorld)
    = [RequestMediaLibraryPermissions; LaunchImageLibrary]
  ∧ final (uploadProof pickerCanceled dishesChore samWorld) = samWorld
  ∧ settled (uploadProof pickerCanceled dishesChore samWorld) = Resolved tt.
Proof.
  split_and!; [reflexivity..| | |];
    apply (uploadProof_canceled pickerCanceled dishesChore samWorld sam
             {| canceled := true; assets := None |});
    first [reflexivity | by left].
Defined.

(** X2: when the photo is uploaded but the update of the record is
    rejected, or there is no record under the chore's id, the photo stays
    in the bucket while the collection is as it was; "Upload failed" is
    raised once and the run settles normally. *)
Theorem uploadProof_update_rejected (env : Env) (chore : Chore.t) (w : World)
    (p : Profile.t) (asset : ImagePickerAsset) (rest : list ImagePickerAsset)
    (blob : Blob) (url : string) :
  profile (ui w) = Some p →
  uploaded env p chore asset rest blob url →
  (∃ reason, env_updateDoc env = Rejected reason)
  ∨ collection (remote w) !! Chore.id chore = None →
  let r := uploadProof env chore w in
  bucket (remote (final r)) !! proofPath p chore (env_now env) = Some blob
  ∧ collection (remote (final r)) = collection (remote w)
  ∧ filter isAlert (calls r)
    = [Alert_alert "Upload failed" "Could not upload photo right now."]
  ∧ ui (final r) = ui w
  ∧ settled r = Resolved tt.
Proof.
  intros Hp (Hperm & Hpick & Hfetch & Hup & Hurl) Hfail.
  run. rewrite Hp. run. rewrite Hperm. run. rewrite Hpick. run.
  rewrite Hfetch. run. rewrite Hup. run. rewrite Hurl. run.
  destruct (env_updateDoc env) as [[]|] eqn:Hupd; run.
  - destruct (collection (remote w) !! Chore.id chore) eqn:Hdoc; run.
    + destruct Hfail as [[? ?]|?]; congruence.
    + split_and!; try reflexivity. apply lookup_insert_eq.
  - split_and!; try reflexivity. apply lookup_insert_eq.
Qed.

Lemma uploadProof_update_rejected_witness :
  profile (ui samWorld) = Some sam
  ∧ uploaded updateFails sam dishesChore photo [] []
      "https://storage/choreProofs/abc12/c1-1700000000123.jpg"
  ∧ let r := uploadProof updateFails dishesChore samWorld in
    bucket (remote (final r))
      !! proofPath sam dishesChore (env_now updateFails) = Some []
    ∧ collection (remote (final r)) = collection (remote samWorld)
    ∧ filter isAlert (calls r)
      = [Alert_alert "Upload failed" "Could not upload photo right now."]
    ∧ ui (final r) = ui samWorld
    ∧ settled r = Resolved tt.
Proof.
  assert (H : uploaded updateFails sam dishesChore photo [] []
                "https://storage/choreProofs/abc12/c1-1700000000123.jpg").
  { repeat split. }
  split; [reflexivity|]. split; [exact H|].
  apply (uploadProof_update_rejected updateFails dishesChore samWorld sam
           photo [] [] _ eq_refl H).
  left. by exists "unavailable".
Defined.

Lemma length_app (a b : string) :
  String.length (a +:+ b) = (String.length a + String.length b)%nat.
Proof.
  induction a as [|x a IH]; [done|].
  change (S (String.length (a +:+ b))
          = S (String.length a + String.length b)). by rewrite IH.
Qed.

Lemma app_inj_r (a b c : string) : a +:+ c = b +:+ c → a = b.
Proof.
  revert b. induction a as [|x a IH]; intros [|y b] H.
  - done.
  - apply (f_equal String.length) in H. rewrite !length_app in H.
    simpl in H. lia.
  - apply (f_equal String.length) in H. rewrite !length_app in H.
    simpl in H. lia.
  - change (String x (a +:+ c) = String y (b +:+ c)) in H.
    injection H as -> H. f_equal. by apply IH.
Qed.

(** X3: two uploads for the same chore by the same profile go to the same
    path exactly when the clock reads the same millisecond: a later retry
    never overwrites the earlier photo. *)
Theorem proofPath_same_iff (p : Profile.t) (chore : Chore.t) (n1 n2 : Z) :
  proofPath p chore n1 = proofPath p chore n2 ↔ n1 = n2.
Proof.
  split; [|by intros ->]. unfold proofPath. intros H.
  do 5 apply String.app_inj in H.
  apply app_inj_r in H. by apply (inj pretty) in H.
Qed.

(** ** Sync Engine: what a snapshot leaves in the held list *)

Lemma insert_desc_perm field (d : DocSnap) (l : list DocSnap) :
  insert_desc field d l ≡ₚ d :: l.
Proof.
  induction l as [|e l IH]; simpl; [done|].
  destruct (d.2 !! field), (e.2 !! field); try done.
  destruct (value_leb _ _); [done|].
  rewrite IH. apply Permutation_swap.
Qed.

Lemma orderBy_desc_perm field (l : list DocSnap) :
  orderBy_desc field l ≡ₚ filter (λ d : DocSnap, is_Some (d.2 !! field)) l.
Proof.
  unfold orderBy_desc.
  induction (filter _ l) as [|d l' IH]; simpl; [done|].
  by rewrite insert_desc_perm, IH.
Qed.

Lemma familyQuery_ids_NoDup (p : Profile.t)
    (coll : gmap string DocumentData) :
  NoDup (fst <$> familyQuery p coll).
Proof.
  unfold familyQuery. rewrite orderBy_desc_perm.
  eapply sublist_NoDup; [apply (NoDup_fst_map_to_list coll)|].
  apply fmap_sublist.
  etrans; apply sublist_filter.
Qed.

(** X4: after a delivery for the active profile no two held chores have
    the same id, so the ids can key the cards of the list. *)
Theorem deliverSnapshot_ids_distinct (w : World) (p : Profile.t)
    (coll : gmap string DocumentData) :
  profile (ui w) = Some p →
  NoDup (Chore.id <$> chores (ui (final (deliverSnapshot coll w)))).
Proof.
  intros Hp. run. rewrite Hp. run.
  rewrite <- list_fmap_compose.
  apply (familyQuery_ids_NoDup p coll).
Qed.

Lemma deliverSnapshot_ids_distinct_witness :
  profile (ui samWorld) = Some sam
  ∧ NoDup (Chore.id <$>
             chores (ui (final (deliverSnapshot someChores samWorld)))).
Proof.
  split; [reflexivity|].
  apply (deliverSnapshot_ids_distinct samWorld sam someChores eq_refl).
Defined.

(** X5: after a delivery for the active profile the held list has exactly
    one chore for each record of the collection that carries the profile's
    family code and a [createdAt]: a record of another family, or one
    without [createdAt], is never held, and whatever was held before is
    gone. *)
Theorem deliverSnapshot_held (w : World) (p : Profile.t)
    (coll : gmap string DocumentData) (c : Chore.t) :
  profile (ui w) = Some p →
  c ∈ chores (ui (final (deliverSnapshot coll w))) ↔
  ∃ data, coll !! Chore.id c = Some data
    ∧ data !! "familyCode" = Some (VStr (Profile.familyCode p))
    ∧ is_Some (data !! "createdAt")
    ∧ c = toChore (Chore.id c, data).
Proof.
  intros Hp. run. rewrite Hp. run. rewrite list_elem_of_fmap. split.
  - intros ([id data] & -> & Hin). exists data.
    apply elem_of_familyQuery in Hin as (? & ? & ?). by simpl.
  - intros (data & Hd & Hfc & Hat & Hc). exists (Chore.id c, data).
    split; [done|]. by apply elem_of_familyQuery.
Qed.

Lemma deliverSnapshot_held_witness :
  profile (ui samWorld) = Some sam
  ∧ (dishesChore ∈ chores (ui (final (deliverSnapshot someChores samWorld)))
     ↔ ∃ data, someChores !! Chore.id dishesChore = Some data
         ∧ data !! "familyCode" = Some (VStr (Profile.familyCode sam))
         ∧ is_Some (data !! "createdAt")
         ∧ dishesChore = toChore (Chore.id dishesChore, data)).
Proof.
  split; [reflexivity|].
  apply (deliverSnapshot_held samWorld sam someChores dishesChore eq_refl).
Defined.

(** ** How the operations compose *)

(** The run in which every stage goes well. *)
Lemma uploadProof_completes (env : Env) (chore : Chore.t) (w : World)
    (p : Profile.t) (asset : ImagePickerAsset) (rest : list ImagePickerAsset)
    (blob : Blob) (url : string) (old : DocumentData) :
  profile (ui w) = Some p →
  uploaded env p chore asset rest blob url →
  env_updateDoc env = Resolved tt →
  collection (remote w) !! Chore.id chore = Some old →
  let r := uploadProof env chore w in
  let data : WriteData := list_to_map
    [("status", Lit (VStr "completed")); ("photoUrl", Lit (VStr url));
     ("completedBy", Lit (VStr (Profile.displayName p)));
     ("completedAt", ServerTimestamp)] in
  settled r = Resolved tt
  ∧ calls r
    = [RequestMediaLibraryPermissions; LaunchImageLibrary; Fetch (uri asset);
       UploadBytes (proofPath p chore (env_now env)) blob;
       GetDownloadURL (proofPath p chore (env_now env));
       UpdateDoc (Chore.id chore) data]
  ∧ ui (final r) = ui w
  ∧ collection (remote (final r))
    = <[Chore.id chore := resolveData (env_serverTime env) data ∪ old]>
        (collection (remote w)).
Proof.
  intros Hp (Hperm & Hpick & Hfetch & Hup & Hurl) Hupd Hold.
  run. rewrite Hp. run. rewrite Hperm. run. rewrite Hpick. run.
  rewrite Hfetch. run. rewrite Hup. run. rewrite Hurl. run.
  rewrite Hupd. run. rewrite Hold. run. done.
Qed.

(** X7: a chore shown by the subscription and then proved with a photo is
    shown by the next snapshot as completed, with the photo's URL, the
    name of who completed it and the server's time, and with its title,
    assignee and creation time as before; its card is green and no longer
    offers the upload to the child. *)
Theorem uploadProof_then_snapshot (env : Env) (chore : Chore.t) (w : World)
    (p : Profile.t) (asset : ImagePickerAsset) (rest : list ImagePickerAsset)
    (blob : Blob) (url : string) (old : DocumentData) :
  profile (ui w) = Some p →
  uploaded env p chore asset rest blob url →
  env_updateDoc env = Resolved tt →
  (Chore.id chore, old) ∈ familyQuery p (collection (remote w)) →
  let w1 := final (uploadProof env chore w) in
  let w2 := final (deliverSnapshot (collection (remote w1)) w1) in
  ∃ c, c ∈ chores (ui w2)
    ∧ Chore.id c = Chore.id chore
    ∧ Chore.status c = VStr "completed"
    ∧ Chore.photoUrl c = Some (VStr url)
    ∧ Chore.completedBy c = Some (VStr (Profile.displayName p))
    ∧ Chore.completedAt c = Some (VTimestamp (env_serverTime env))
    ∧ Chore.title c = Chore.title (toChore (Chore.id chore, old))
    ∧ Chore.assignedTo c = Chore.assignedTo (toChore (Chore.id chore, old))
    ∧ Chore.createdAt c = old !! "createdAt"
    ∧ statusColor (ChoreCard c child true) = "#22c55e"
    ∧ uploadButton (ChoreCard c child true) = false.
Proof.
  intros Hp Hup Hupd Hin w1 w2.
  apply elem_of_familyQuery in Hin as (Hold & Hfc & Hat).
  destruct (uploadProof_completes env chore w p asset rest blob url old
              Hp Hup Hupd Hold) as (_ & _ & Hui & Hcoll).
  fold w1 in Hui, Hcoll.
  destruct (completion_merge (env_serverTime env) url
              (Profile.displayName p) old)
    as (Hframe & Hstatus & Hphoto & Hby & Hdone).
  set (new := resolveData _ _ ∪ old) in *.
  assert (Hkey : ∀ k, k ∈ ["title"; "assignedTo"; "familyCode"; "createdAt"]
                 → new !! k = old !! k).
  { intros k Hk. apply Hframe. unfold completionKeys.
    intros Hk'. revert Hk Hk'. rewrite !elem_of_cons, !elem_of_nil.
    intros Hk Hk'. destruct_or!; subst; discriminate. }
  assert (Htitle := Hkey "title" ltac:(set_solver)).
  assert (Hwho := Hkey "assignedTo" ltac:(set_solver)).
  assert (Hfam := Hkey "familyCode" ltac:(set_solver)).
  assert (Hcreated := Hkey "createdAt" ltac:(set_solver)).
  exists (toChore (Chore.id chore, new)).
  assert (Hst : Chore.status (toChore (Chore.id chore, new))
                = VStr "completed").
  { unfold toChore. simpl. by rewrite Hstatus. }
  split_and!.
  - subst w2. run. rewrite Hui, Hp. run.
    apply list_elem_of_fmap. exists (Chore.id chore, new). split; [done|].
    apply elem_of_familyQuery. rewrite Hcoll, lookup_insert_eq.
    by rewrite Hfam, Hcreated.
  - done.
  - done.
  - unfold toChore. simpl. by rewrite Hphoto.
  - unfold toChore. simpl. by rewrite Hby.
  - unfold toChore. simpl. by rewrite Hdone.
  - unfold toChore. simpl. by rewrite Htitle.
  - unfold toChore. simpl. by rewrite Hwho.
  - unfold toChore. simpl. by rewrite Hcreated.
  - unfold ChoreCard. rewrite Hst. reflexivity.
  - unfold ChoreCard. rewrite Hst. reflexivity.
Qed.

Lemma uploadProof_then_snapshot_witness :
  profile (ui samWorld) = Some sam
  ∧ uploaded allWell sam dishesChore photo [] []
      "https://storage/choreProofs/abc12/c1-1700000000123.jpg"
  ∧ env_updateDoc allWell = Resolved tt
  ∧ (Chore.id dishesChore, dishes)
      ∈ familyQuery sam (collection (remote samWorld))
  ∧ ∃ c,
      c ∈ chores (ui (final (deliverSnapshot
            (collection (remote (final (uploadProof allWell dishesChore
                                          samWorld))))
            (final (uploadProof allWell dishesChore samWorld)))))
      ∧ Chore.id c = Chore.id dishesChore
      ∧ Chore.status c = VStr "completed"
      ∧ Chore.photoUrl c
        = Some (VStr "https://storage/choreProofs/abc12/c1-1700000000123.jpg")
      ∧ Chore.completedBy c = Some (VStr (Profile.displayName sam))
      ∧ Chore.completedAt c = Some (VTimestamp (env_serverTime allWell))
      ∧ Chore.title c = Chore.title (toChore (Chore.id dishesChore, dishes))
      ∧ Chore.assignedTo c
        = Chore.assignedTo (toChore (Chore.id dishesChore, dishes))
      ∧ Chore.createdAt c = dishes !! "createdAt"
      ∧ statusColor (ChoreCard c child true) = "#22c55e"
      ∧ uploadButton (ChoreCard c child true) = false.
Proof.
  assert (Hup : uploaded allWell sam dishesChore photo [] []
                  "https://storage/choreProofs/abc12/c1-1700000000123.jpg").
  { repeat split. }
  assert (Hin : (Chore.id dishesChore, dishes)
                  ∈ familyQuery sam (collection (remote samWorld))).
  { apply elem_of_familyQuery. split_and!; [reflexivity..|by eexists]. }
  split; [reflexivity|]. split; [exact Hup|]. split; [reflexivity|].
  split; [exact Hin|].
  exact (uploadProof_then_snapshot allWell dishesChore samWorld sam photo []
           [] _ dishes eq_refl Hup eq_refl Hin).
Defined.

(** ** Create chore: the other ways a run can go *)

Lemma truthy_trim (s : string) : Js.truthy (Js.trim s) = negb (blank s).
Proof.
  destruct (blank s) eqn:Hb.
  - apply Is_true_true, trim_empty in Hb. by rewrite Hb.
  - destruct (Js.trim s) eqn:Ht; [|done].
    apply trim_empty, Is_true_true in Ht. congruence.
Qed.

(** X8: with a profile, [addChore] asks the repository for nothing exactly
    when the title or the assignee typed in consists of white space only
    (or is empty); it then raises "Missing info" and changes nothing. *)
Theorem addChore_blank_iff (env : Env) (w : World) (p : Profile.t) :
  profile (ui w) = Some p →
  (filter isRepositoryWrite (calls (addChore env w)) = []
   ↔ blank (newChoreTitle (ui w)) ∨ blank (assignee (ui w)))
  ∧ (blank (newChoreTitle (ui w)) ∨ blank (assignee (ui w)) →
     calls (addChore env w)
     = [Alert_alert "Missing info" "Add a chore title and who it is for."]
     ∧ final (addChore env w) = w).
Proof.
  intros Hp. run. rewrite Hp. rewrite !truthy_trim, !negb_involutive.
  destruct (blank (newChoreTitle (ui w))), (blank (assignee (ui w))); run.
  1-3: split; [split; [auto|reflexivity]|]; intros _; by destruct w.
  split; [|intros [[]|[]]].
  split; [|intros [[]|[]]].
  settle; discriminate.
Qed.

Lemma addChore_blank_iff_witness :
  profile (ui samWorld) = Some sam
  ∧ (filter isRepositoryWrite (calls (addChore allWell samWorld)) = []
     ↔ blank (newChoreTitle (ui samWorld)) ∨ blank (assignee (ui samWorld)))
  ∧ (blank (newChoreTitle (ui samWorld))
     ∨ blank (assignee (ui samWorld)) →
     calls (addChore allWell samWorld)
     = [Alert_alert "Missing info" "Add a chore title and who it is for."]
     ∧ final (addChore allWell samWorld) = samWorld).
Proof.
  split; [reflexivity|].
  apply (addChore_blank_iff allWell samWorld sam eq_refl).
Defined.

(** X9: whatever [addChore] asks the repository to add has a title and an
    assignee that are not empty and have no white space at either end,
    carries the family code of the profile and is pending without a photo. *)
Theorem addChore_writes_clean (env : Env) (w : World) (data : WriteData) :
  AddDoc data ∈ calls (addChore env w) →
  ∃ p title who,
    profile (ui w) = Some p
    ∧ data = list_to_map
        [("title", Lit (VStr title)); ("assignedTo", Lit (VStr who));
         ("familyCode", Lit (VStr (Profile.familyCode p)));
         ("status", Lit (VStr "pending")); ("photoUrl", Lit VNull);
         ("createdAt", ServerTimestamp)]
    ∧ title ≠ "" ∧ startsClean title ∧ endsClean title
    ∧ who ≠ "" ∧ startsClean who ∧ endsClean who.
Proof.
  run. destruct (profile (ui w)) as [p|]; [|by intros ?%elem_of_nil].
  destruct (Js.truthy (Js.trim (newChoreTitle (ui w)))) eqn:Ht;
    destruct (Js.truthy (Js.trim (assignee (ui w)))) eqn:Hw; run.
  2-4: rewrite !elem_of_cons, elem_of_nil; intros H; by destruct_or!.
  intros Hin. exists p, (Js.trim (newChoreTitle (ui w))),
    (Js.trim (assignee (ui w))).
  destruct (trim_spec (newChoreTitle (ui w))) as (_ & ? & ?).
  destruct (trim_spec (assignee (ui w))) as (_ & ? & ?).
  split_and!; try done.
  - revert Hin. settle; rewrite !elem_of_cons, elem_of_nil;
      intros Hin; destruct_or!; by simplify_eq.
  - by intros E; rewrite E in Ht.
  - by intros E; rewrite E in Hw.
Qed.

Lemma addChore_writes_clean_witness :
  AddDoc trashWrite ∈ calls (addChore allWell patWorld)
  ∧ ∃ p title who,
      profile (ui patWorld) = Some p
      ∧ trashWrite = list_to_map
          [("title", Lit (VStr title)); ("assignedTo", Lit (VStr who));
           ("familyCode", Lit (VStr (Profile.familyCode p)));
           ("status", Lit (VStr "pending")); ("photoUrl", Lit VNull);
           ("createdAt", ServerTimestamp)]
      ∧ title ≠ "" ∧ startsClean title ∧ endsClean title
      ∧ who ≠ "" ∧ startsClean who ∧ endsClean who.
Proof.
  assert (H : AddDoc trashWrite ∈ calls (addChore allWell patWorld)).
  { apply list_elem_of_here. }
  split; [exact H|].
  exact (addChore_writes_clean allWell patWorld trashWrite H).
Defined.

(** X10: when the server does not take the new chore, or answers with an
    id that is in use, nothing is added, the two inputs keep what was
    typed, "Save failed" is raised once and the run settles normally. *)
Theorem addChore_rejected (env : Env) (w : World) (p : Profile.t) :
  profile (ui w) = Some p →
  blank (newChoreTitle (ui w)) = false →
  blank (assignee (ui w)) = false →
  (∃ reason, env_addDoc env = Rejected reason)
  ∨ (∃ id, env_addDoc env = Resolved id
           ∧ is_Some (collection (remote w) !! id)) →
  final (addChore env w) = w
  ∧ filter isAlert (calls (addChore env w))
    = [Alert_alert "Save failed" "Could not add this chore right now."]
  ∧ length (filter isRepositoryWrite (calls (addChore env w))) = 1%nat
  ∧ settled (addChore env w) = Resolved tt.
Proof.
  intros Hp Ht Hw Hfail. run. rewrite Hp, !truthy_trim, Ht, Hw. run.
  destruct (env_addDoc env) as [id|reason]; run.
  - destruct (collection (remote w) !! id) eqn:Hid; run.
    + by destruct w.
    + destruct Hfail as [[? ?]|(id' & Hid' & [? Hsome])]; [done|].
      simplify_eq; congruence.
  - by destruct w.
Qed.

Lemma addChore_rejected_witness :
  profile (ui patWorld) = Some pat
  ∧ blank (newChoreTitle (ui patWorld)) = false
  ∧ blank (assignee (ui patWorld)) = false
  ∧ final (addChore addFails patWorld) = patWorld
  ∧ filter isAlert (calls (addChore addFails patWorld))
    = [Alert_alert "Save failed" "Could not add this chore right now."]
  ∧ length (filter isRepositoryWrite (calls (addChore addFails patWorld)))
    = 1%nat
  ∧ settled (addChore addFails patWorld) = Resolved tt.
Proof.
  split_and!; [reflexivity..| | | |];
    apply (addChore_rejected addFails patWorld pat eq_refl eq_refl eq_refl);
    left; by exists "unavailable".
Defined.

(** The run in which the server takes the new chore. *)
Lemma addChore_added (env : Env) (w : World) (p : Profile.t) (id : string) :
  profile (ui w) = Some p →
  blank (newChoreTitle (ui w)) = false →
  blank (assignee (ui w)) = false →
  env_addDoc env = Resolved id →
  collection (remote w) !! id = None →
  final (addChore env w)
  = {| ui := set_assignee "" (set_newChoreTitle "" (ui w));
       remote := set_collection
         (<[id := doc
             [("title", VStr (Js.trim (newChoreTitle (ui w))));
              ("assignedTo", VStr (Js.trim (assignee (ui w))));
              ("familyCode", VStr (Profile.familyCode p));
              ("status", VStr "pending"); ("photoUrl", VNull);
              ("createdAt", VTimestamp (env_serverTime env))]]>
            (collection (remote w))) (remote w) |}
  ∧ settled (addChore env w) = Resolved tt
  ∧ filter isAlert (calls (addChore env w)) = [].
Proof.
  intros Hp Ht Hw Hadd Hid. run. rewrite Hp, !truthy_trim, Ht, Hw. run.
  rewrite Hadd. run. rewrite Hid. run. by rewrite resolve_newChore.
Qed.

(** X11: after a chore is added the two inputs are empty, so running
    [addChore] again at once, whatever the collaborators answer, adds
    nothing: it raises "Missing info". *)
Theorem addChore_twice (env env' : Env) (w : World) (p : Profile.t)
    (id : string) :
  profile (ui w) = Some p →
  blank (newChoreTitle (ui w)) = false →
  blank (assignee (ui w)) = false →
  env_addDoc env = Resolved id →
  collection (remote w) !! id = None →
  let w1 := final (addChore env w) in
  newChoreTitle (ui w1) = "" ∧ assignee (ui w1) = ""
  ∧ calls (addChore env' w1)
    = [Alert_alert "Missing info" "Add a chore title and who it is for."]
  ∧ final (addChore env' w1) = w1.
Proof.
  intros Hp Ht Hw Hadd Hid w1.
  destruct (addChore_added env w p id Hp Ht Hw Hadd Hid) as (Hw1 & _).
  fold w1 in Hw1. rewrite Hw1. run. by rewrite Hp.
Qed.

Lemma addChore_twice_witness :
  profile (ui patWorld) = Some pat
  ∧ blank (newChoreTitle (ui patWorld)) = false
  ∧ blank (assignee (ui patWorld)) = false
  ∧ env_addDoc allWell = Resolved "c9"
  ∧ collection (remote patWorld) !! "c9" = None
  ∧ newChoreTitle (ui (final (addChore allWell patWorld))) = ""
  ∧ assignee (ui (final (addChore allWell patWorld))) = ""
  ∧ calls (addChore allWell (final (addChore allWell patWorld)))
    = [Alert_alert "Missing info" "Add a chore title and who it is for."]
  ∧ final (addChore allWell (final (addChore allWell patWorld)))
    = final (addChore allWell patWorld).
Proof.
  split_and!; [reflexivity..| | | |];
    apply (addChore_twice allWell allWell patWorld pat "c9" eq_refl eq_refl
             eq_refl eq_refl eq_refl).
Defined.

(** X12: a chore that the parent adds is shown by the next snapshot of the
    family: pending, with the trimmed title and assignee, without a photo
    or a completer, and its card offers the upload to the child. *)
Theorem addChore_then_snapshot (env : Env) (w : World) (p : Profile.t)
    (id : string) :
  profile (ui w) = Some p →
  blank (newChoreTitle (ui w)) = false →
  blank (assignee (ui w)) = false →
  env_addDoc env = Resolved id →
  collection (remote w) !! id = None →
  let w1 := final (addChore env w) in
  let w2 := final (deliverSnapshot (collection (remote w1)) w1) in
  ∃ c, c ∈ chores (ui w2)
    ∧ Chore.id c = id
    ∧ Chore.title c = VStr (Js.trim (newChoreTitle (ui w)))
    ∧ Chore.assignedTo c = VStr (Js.trim (assignee (ui w)))
    ∧ Chore.familyCode c = VStr (Profile.familyCode p)
    ∧ Chore.status c = VStr "pending"
    ∧ Chore.photoUrl c = Some VNull
    ∧ Chore.completedBy c = None
    ∧ Chore.createdAt c = Some (VTimestamp (env_serverTime env))
    ∧ previewImage (ChoreCard c child true) = None
    ∧ uploadButton (ChoreCard c child true) = true.
Proof.
  intros Hp Ht Hw Hadd Hid w1 w2.
  destruct (addChore_added env w p id Hp Ht Hw Hadd Hid) as (Hw1 & _).
  fold w1 in Hw1.
  set (data := doc _) in Hw1.
  exists (toChore (id, data)). split_and!; try reflexivity.
  subst w2. rewrite Hw1. run. rewrite Hp. run.
  apply list_elem_of_fmap. exists (id, data). split; [done|].
  apply elem_of_familyQuery. rewrite lookup_insert_eq.
  split_and!; [done|reflexivity|by eexists].
Qed.

Lemma addChore_then_snapshot_witness :
  profile (ui patWorld) = Some pat
  ∧ blank (newChoreTitle (ui patWorld)) = false
  ∧ blank (assignee (ui patWorld)) = false
  ∧ env_addDoc allWell = Resolved "c9"
  ∧ collection (remote patWorld) !! "c9" = None
  ∧ ∃ c,
      c ∈ chores (ui (final (deliverSnapshot
            (collection (remote (final (addChore allWell patWorld))))
            (final (addChore allWell patWorld)))))
      ∧ Chore.id c = "c9"
      ∧ Chore.title c = VStr (Js.trim (newChoreTitle (ui patWorld)))
      ∧ Chore.assignedTo c = VStr (Js.trim (assignee (ui patWorld)))
      ∧ Chore.familyCode c = VStr (Profile.familyCode pat)
      ∧ Chore.status c = VStr "pending"
      ∧ Chore.photoUrl c = Some VNull
      ∧ Chore.completedBy c = None
      ∧ Chore.createdAt c = Some (VTimestamp (env_serverTime allWell))
      ∧ previewImage (ChoreCard c child true) = None
      ∧ uploadButton (ChoreCard c child true) = true.
Proof.
  split_and!; [reflexivity..|].
  exact (addChore_then_snapshot allWell patWorld pat "c9" eq_refl eq_refl
           eq_refl eq_refl eq_refl).
Defined.

(** X13: without a profile the three entry points do nothing at all. *)
Theorem no_profile_no_effect (env : Env) (chore : Chore.t)
    (coll : gmap string DocumentData) (w : World) :
  profile (ui w) = None →
  (calls (addChore env w) = [] ∧ final (addChore env w) = w)
  ∧ (calls (uploadProof env chore w) = []
     ∧ final (uploadProof env chore w) = w)
  ∧ (calls (deliverSnapshot coll w) = []
     ∧ final (deliverSnapshot coll w) = w).
Proof. intros Hp. run. by rewrite Hp. Qed.

Lemma no_profile_no_effect_witness :
  profile (ui noProfileWorld) = None
  ∧ (calls (addChore allWell noProfileWorld) = []
     ∧ final (addChore allWell noProfileWorld) = noProfileWorld)
  ∧ (calls (uploadProof allWell dishesChore noProfileWorld) = []
     ∧ final (uploadProof allWell dishesChore noProfileWorld)
       = noProfileWorld)
  ∧ (calls (deliverSnapshot ∅ noProfileWorld) = []
     ∧ final (deliverSnapshot ∅ noProfileWorld) = noProfileWorld).
Proof.
  split; [reflexivity|].
  apply (no_profile_no_effect allWell dishesChore ∅ noProfileWorld eq_refl).
Defined.

(** ** ProfileSetup *)

Lemma toLowerCase_empty (s : string) : Js.toLowerCase s = "" → s = "".
Proof. by destruct s. Qed.

(** X14: [handleSave] raises "Missing info" exactly when the family code
    or the name consists of white space only. Otherwise it hands on a
    profile with the chosen role whose name and family code are not empty
    and are left as they are by [trim], whose family code is left as it is
    by [toLowerCase], and which [handleSave] would hand on unchanged if it
    were typed in again. *)
Theorem handleSave_normal (f : ProfileForm) :
  match handleSave f with
  | inl notice =>
      (blank (form_familyCode f) ∨ blank (form_displayName f))
      ∧ notice
        = Alert_alert "Missing info" "Fill in your name and family code."
  | inr p =>
      blank (form_familyCode f) = false
      ∧ blank (form_displayName f) = false
      ∧ Profile.role p = form_role f
      ∧ Profile.displayName p = Js.trim (form_displayName f)
      ∧ Profile.familyCode p = Js.toLowerCase (Js.trim (form_familyCode f))
      ∧ Profile.displayName p ≠ "" ∧ Profile.familyCode p ≠ ""
      ∧ Js.trim (Profile.displayName p) = Profile.displayName p
      ∧ Js.trim (Profile.familyCode p) = Profile.familyCode p
      ∧ Js.toLowerCase (Profile.familyCode p) = Profile.familyCode p
      ∧ handleSave {| form_role := Profile.role p;
                      form_familyCode := Profile.familyCode p;
                      form_displayName := Profile.displayName p |}
        = inr p
  end.
Proof.
  unfold handleSave. rewrite !truthy_trim, !negb_involutive.
  destruct (blank (form_familyCode f)) eqn:Hf; simpl; [auto|].
  destruct (blank (form_displayName f)) eqn:Hn; simpl; [auto|].
  assert (Hn' : Js.trim (form_displayName f) ≠ "").
  { intros E%trim_empty%Is_true_true. congruence. }
  assert (Hf' : Js.toLowerCase (Js.trim (form_familyCode f)) ≠ "").
  { intros E%toLowerCase_empty%trim_empty%Is_true_true. congruence. }
  assert (Hf'' : Js.trim (Js.toLowerCase (Js.trim (form_familyCode f)))
                 = Js.toLowerCase (Js.trim (form_familyCode f))).
  { by rewrite toLowerCase_trim, trim_idem. }
  split_and!; try done.
  - apply trim_idem.
  - apply toLowerCase_idem.
  - rewrite !truthy_trim.
    destruct (blank (Js.toLowerCase _)) eqn:Hb1.
    { apply Is_true_true, trim_empty in Hb1. congruence. }
    destruct (blank (Js.trim (form_displayName f))) eqn:Hb2.
    { apply Is_true_true, trim_empty in Hb2. rewrite trim_idem in Hb2.
      congruence. }
    simpl. by rewrite trim_idem, Hf'', toLowerCase_idem.
Qed.

(** ** View Projector: who sees what *)

Lemma handleSave_spec_aux (f : ProfileForm) :
  match handleSave f with
  | inl _ => True
  | inr p => Profile.displayName p = Js.trim (form_displayName f)
             ∧ Js.trim (Profile.displayName p) = Profile.displayName p
  end.
Proof.
  unfold handleSave. destruct (_ || _); [done|]. simpl.
  split; [done|]. apply trim_idem.
Qed.

(** X15: a child whose profile comes from [handleSave] is shown a chore
    whose assignee was trimmed by [addChore] exactly when the assignee and
    the name, as typed, agree up to case and white space at the two ends. *)
Theorem child_sees_assigned (f : ProfileForm) (p : Profile.t)
    (who : string) (c : Chore.t) :
  handleSave f = inr p →
  Profile.role p = child →
  Chore.assignedTo c = VStr (Js.trim who) →
  projectView p [c]
  = Resolved (if bool_decide (Js.toLowerCase (Js.trim who)
                              = Js.toLowerCase
                                  (Js.trim (form_displayName f)))
              then [c] else []).
Proof.
  intros Hsave Hrole Hwho.
  pose proof (handleSave_spec_aux f) as Haux. rewrite Hsave in Haux.
  destruct Haux as (Hname & Hclean).
  unfold projectView, childChores. rewrite Hrole. simpl.
  rewrite Hwho. simpl.
  rewrite (toLowerCase_trim (Js.trim who)), trim_idem.
  rewrite toLowerCase_trim, Hclean, Hname.
  apply f_equal. apply (f_equal (λ b : bool, if b then [c] else [])).
  apply bool_decide_ext. split; congruence.
Qed.

Lemma child_sees_assigned_witness :
  handleSave samForm = inr sam
  ∧ Profile.role sam = child
  ∧ Chore.assignedTo dishesChore = VStr (Js.trim " Sam")
  ∧ projectView sam [dishesChore]
    = Resolved (if bool_decide (Js.toLowerCase (Js.trim " Sam")
                                = Js.toLowerCase
                                    (Js.trim (form_displayName samForm)))
                then [dishesChore] else []).
Proof.
  split_and!; [reflexivity..|].
  apply (child_sees_assigned samForm sam " Sam" dishesChore);
    reflexivity.
Defined.

(** X16: for a child, the projection of the chores normalised from a
    snapshot throws exactly when some record has an [assignedTo] that is
    present and neither [null] nor a string; for a parent it never throws. *)
Theorem projectView_throws_iff (p : Profile.t) (snapshot : list DocSnap) :
  match Profile.role p with
  | parent => projectView p (toChore <$> snapshot)
              = Resolved (toChore <$> snapshot)
  | child =>
      (∃ e, projectView p (toChore <$> snapshot) = Rejected e)
      ↔ Exists (λ d, readableAssignee d = false) snapshot
  end.
Proof.
  destruct (Profile.role p) eqn:Hr; [by apply projectView_parent|].
  unfold projectView, childChores. rewrite Hr. simpl.
  induction snapshot as [|d l IH]; simpl.
  - rewrite Exists_nil. split; [by intros [? ?]|done].
  - rewrite Exists_cons.
    unfold readableAssignee at 1. unfold toChore at 1. simpl.
    destruct (d.2 !! "assignedTo") as [[]|]; simpl;
      try (split; [eauto|by eexists]).
    all: destruct (filterThrowing _ _) as [r|e]; simpl in *.
    all: split;
      [ intros [e' He']; try discriminate He'; right; apply IH; eauto
      | intros [Hd|Hl]; [done|]; apply IH in Hl as [e' He'];
        try discriminate He'; eauto ].
Qed.

(** ** What is rendered *)

(** X17: on the main screen no card of the parent's list offers the
    upload; in the child's list a card offers it exactly when its status
    pill is not green, that is when the chore is not completed. *)
Theorem render_upload_offered (s : AppState) (greeting : string)
    (code : list N) (view : ParentScreen + ChoreList) (cards : list Card) :
  render s = Resolved (MainScreen greeting code view) →
  match view with
  | inl ps =>
      familyChores ps = FlatList cards →
      Forall (λ card, uploadButton card = false) cards
  | inr list =>
      list = FlatList cards →
      Forall (λ card, uploadButton card
                      = negb (bool_decide (statusColor card = "#22c55e")))
             cards
  end.
Proof.
  assert (Hparent : ∀ l : list Chore.t,
    Forall (λ card, uploadButton card = false)
           ((λ item, ChoreCard item parent false) <$> l)).
  { intros l. apply Forall_fmap, Forall_forall. by intros x _. }
  assert (Hchild : ∀ l : list Chore.t,
    Forall (λ card, uploadButton card
                    = negb (bool_decide (statusColor card = "#22c55e")))
           ((λ item, ChoreCard item child true) <$> l)).
  { intros l. apply Forall_fmap, Forall_forall. intros x _.
    unfold ChoreCard. simpl.
    destruct (Chore.status x) as [|[]|n|t|st]; simpl; try reflexivity.
    - by destruct (n =? 0)%Z.
    - destruct st as [|a st]; simpl; [reflexivity|].
      by destruct (bool_decide (VStr (String a st) = VStr "completed")). }
  unfold render.
  destruct (childChores (profile s) (chores s)) as [cc|]; [|done].
  destruct (loadingProfile s); [done|].
  destruct (profile s) as [p|]; [|done].
  intros [= <- <- <-].
  destruct (bool_decide (Profile.role p = parent)).
  - unfold ParentView. simpl. destruct (loadingChores s); [done|].
    specialize (Hparent (chores s)). unfold flatList.
    destruct (_ <$> chores s); [done|]. by intros [= <-].
  - unfold ChildView. destruct (loadingChores s); [done|].
    specialize (Hchild cc). unfold flatList.
    destruct (_ <$> cc); [done|]. by intros [= <-].
Qed.

Lemma render_upload_offered_witness :
  render (ui samWorld)
  = Resolved (MainScreen "Hi, Sam" (toUpperCase "abc12")
                (inr (ChildView [toChore ("c4", shoes); dishesChore] false)))
  ∧ Forall (λ card, uploadButton card
                    = negb (bool_decide (statusColor card = "#22c55e")))
      ((λ item, ChoreCard item child true)
         <$> [toChore ("c4", shoes); dishesChore]).
Proof.
  assert (H : render (ui samWorld)
    = Resolved (MainScreen "Hi, Sam" (toUpperCase "abc12")
        (inr (ChildView [toChore ("c4", shoes); dishesChore] false)))).
  { reflexivity. }
  split; [exact H|].
  exact (render_upload_offered (ui samWorld) _ _ _ _ H eq_refl).
Defined.

(** X18: when a parent profile replaces the one in use, the list is hidden
    behind the spinner; if the new subscription then fails, the spinner
    goes and the parent is shown the chores held before the change, those
    of the profile that was replaced. *)
Theorem switch_then_error (w : World) (p : Profile.t) (error : string) :
  Profile.role p = parent →
  loadingProfile (ui w) = false →
  let w1 := final (setProfile (Some p) w) in
  let w2 := final (onSnapshotError error w1) in
  let shows (s : AppState) (list : ChoreList) :=
    render s
    = Resolved (MainScreen ("Hi, " +:+ Profile.displayName p)
                  (toUpperCase (Profile.familyCode p))
                  (inl {| titleInput := newChoreTitle (ui w);
                          assigneeInput := assignee (ui w);
                          familyChores := list |})) in
  shows (ui w1) ActivityIndicator
  ∧ shows (ui w2)
      (flatList ((λ item, ChoreCard item parent false) <$> chores (ui w))
                "No chores yet. Add one above.").
Proof.
  intros Hr Hl. run. unfold render, childChores. simpl.
  rewrite Hr, Hl. simpl. done.
Qed.

Lemma switch_then_error_witness :
  Profile.role pat = parent
  ∧ loadingProfile (ui samWorld) = false
  ∧ render (ui (final (setProfile (Some pat) samWorld)))
    = Resolved (MainScreen ("Hi, " +:+ Profile.displayName pat)
                  (toUpperCase (Profile.familyCode pat))
                  (inl {| titleInput := newChoreTitle (ui samWorld);
                          assigneeInput := assignee (ui samWorld);
                          familyChores := ActivityIndicator |}))
  ∧ render (ui (final (onSnapshotError "offline"
                         (final (setProfile (Some pat) samWorld)))))
    = Resolved (MainScreen ("Hi, " +:+ Profile.displayName pat)
                  (toUpperCase (Profile.familyCode pat))
                  (inl {| titleInput := newChoreTitle (ui samWorld);
                          assigneeInput := assignee (ui samWorld);
                          familyChores :=
                            flatList ((λ item, ChoreCard item parent false)
                                        <$> chores (ui samWorld))
                                     "No chores yet. Add one above." |})).
Proof.
  split; [reflexivity|]. split; [reflexivity|].
  exact (switch_then_error samWorld pat "offline" eq_refl eq_refl).
Defined.

(** ** A JSON for profiles: parse after stringify *)

Lemma unquote_escapeInto (c : ascii) (t : string) :
  unquote (escapeInto c t)
  = match unquote t with
    | Some (s, rest) => Some (String c s, rest)
    | None => None
    end.
Proof. destruct c as [[] [] [] [] [] [] [] []]; reflexivity. Qed.

Lemma unquote_quoteInto (s tail : string) :
  unquote (quoteInto s tail) = Some (s, tail).
Proof.
  induction s as [|c s IH]; [reflexivity|].
  cbn [quoteInto]. by rewrite unquote_escapeInto, IH.
Qed.

Lemma expect_app (prefix s : string) : expect prefix (prefix +:+ s) = Some s.
Proof.
  induction prefix as [|a prefix IH]; [done|].
  change (expect (String a prefix) (String a (prefix +:+ s)) = Some s).
  cbn [expect]. by rewrite Ascii.eqb_refl.
Qed.

Lemma parse_stringify (p : Profile.t) :
  parseProfile (stringifyProfile p) = Resolved p.
Proof.
  destruct p as [n f r]. unfold parseProfile.
  change (stringifyProfile (Profile.mk n f r))
    with ("{" +:+ (keyPrefix "role" +:+ quoteInto (roleName r) ("," +:+
         (keyPrefix "displayName" +:+ quoteInto n ("," +:+
         (keyPrefix "familyCode" +:+ quoteInto f "}")))))).
  rewrite expect_app. cbn [mbind option_bind].
  rewrite expect_app. cbn [mbind option_bind].
  rewrite unquote_quoteInto. cbn [mbind option_bind].
  rewrite expect_app. cbn [mbind option_bind].
  rewrite expect_app. cbn [mbind option_bind].
  rewrite unquote_quoteInto. cbn [mbind option_bind].
  rewrite expect_app. cbn [mbind option_bind].
  rewrite expect_app. cbn [mbind option_bind].
  rewrite unquote_quoteInto. cbn [mbind option_bind].
  by destruct r.
Qed.

Lemma stringify_truthy (p : Profile.t) : Js.truthy (stringifyProfile p) = true.
Proof. reflexivity. Qed.

(** ** Identity Store *)

(** X19: however the first effect goes (nothing stored, an empty text, a
    text that does not parse, a read that fails), it ends with
    [loadingProfile] false and touches neither the storage nor the remote
    side; only a stored text that parses gives a profile. *)
Theorem loadProfile_finishes (json : JSON) (getItem : outcome unit)
    (d : Device) :
  let d' := (loadProfile json getItem d).2 in
  loadingProfile (ui (world d')) = false
  ∧ asyncStorage d' = asyncStorage d
  ∧ remote (world d') = remote (world d)
  ∧ (profile (ui (world d')) = profile (ui (world d))
     ∨ ∃ stored p, asyncStorage d !! FAMILY_STORAGE_KEY = Some stored
                   ∧ parse json stored = Resolved p
                   ∧ profile (ui (world d')) = Some p).
Proof.
  unfold loadProfile.
  destruct getItem as [[]|]; [|by auto].
  destruct (asyncStorage d !! FAMILY_STORAGE_KEY) as [stored|]; [|by auto].
  destruct (Js.truthy stored); [|by auto].
  destruct (parse json stored) as [p|] eqn:Hp; [|by auto].
  split_and!; try done. right. by exists stored, p.
Qed.

(** X20: a profile that is saved is the profile in use when the process
    starts again on the device: the first effect reads it back, ends the
    loading and the main screen is shown, provided [JSON.parse] gives back
    the profile that [JSON.stringify] was given. *)
Theorem save_restart_load (json : JSON) (p : Profile.t) (d : Device) :
  parse json (stringify json p) = Resolved p →
  Js.truthy (stringify json p) = true →
  let saved := (saveProfile json (Resolved tt) p d).2 in
  let d' := (loadProfile json (Resolved tt) (restart saved)).2 in
  profile (ui (world saved)) = Some p
  ∧ profile (ui (world d')) = Some p
  ∧ loadingProfile (ui (world d')) = false
  ∧ ∃ view, render (ui (world d'))
            = Resolved (MainScreen ("Hi, " +:+ Profile.displayName p)
                          (toUpperCase (Profile.familyCode p)) view).
Proof.
  intros Hparse Htruthy. unfold loadProfile, saveProfile, restart. simpl.
  rewrite lookup_insert_eq, Htruthy, Hparse. simpl.
  split_and!; try done.
  unfold render, childChores. simpl.
  destruct (negb _); simpl; eauto.
Qed.

Lemma save_restart_load_witness :
  parse profileJson (stringify profileJson sam) = Resolved sam
  ∧ Js.truthy (stringify profileJson sam) = true
  ∧ profile (ui (world (saveProfile profileJson (Resolved tt) sam
                          newDevice).2)) = Some sam
  ∧ profile (ui (world (loadProfile profileJson (Resolved tt)
       (restart (saveProfile profileJson (Resolved tt) sam newDevice).2)).2))
    = Some sam
  ∧ loadingProfile (ui (world (loadProfile profileJson (Resolved tt)
       (restart (saveProfile profileJson (Resolved tt) sam newDevice).2)).2))
    = false
  ∧ ∃ view,
      render (ui (world (loadProfile profileJson (Resolved tt)
        (restart (saveProfile profileJson (Resolved tt) sam newDevice).2)).2))
      = Resolved (MainScreen ("Hi, " +:+ Profile.displayName sam)
                    (toUpperCase (Profile.familyCode sam)) view).
Proof.
  assert (H1 : parse profileJson (stringify profileJson sam) = Resolved sam).
  { reflexivity. }
  assert (H2 : Js.truthy (stringify profileJson sam) = true).
  { reflexivity. }
  split; [exact H1|]. split; [exact H2|].
  exact (save_restart_load profileJson sam newDevice H1 H2).
Defined.

(** X21: after [resetProfile] there is no profile in use and none stored:
    the setup screen is shown at once and again when the process starts
    again, whatever was saved before. The chores that were held stay held. *)
Theorem reset_restart_load (json : JSON) (getItem : outcome unit)
    (d : Device) :
  loadingProfile (ui (world d)) = false →
  let cleared := (resetProfile (Resolved tt) d).2 in
  let d' := (loadProfile json getItem (restart cleared)).2 in
  render (ui (world cleared)) = Resolved ProfileSetupScreen
  ∧ chores (ui (world cleared)) = chores (ui (world d))
  ∧ asyncStorage cleared !! FAMILY_STORAGE_KEY = None
  ∧ render (ui (world d')) = Resolved ProfileSetupScreen.
Proof.
  intros Hl. unfold resetProfile, loadProfile, restart. simpl.
  rewrite lookup_delete_eq. unfold render. simpl. rewrite Hl.
  by destruct getItem as [[]|].
Qed.

Lemma reset_restart_load_witness :
  loadingProfile (ui (world samDevice)) = false
  ∧ render (ui (world (resetProfile (Resolved tt) samDevice).2))
    = Resolved ProfileSetupScreen
  ∧ chores (ui (world (resetProfile (Resolved tt) samDevice).2))
    = chores (ui (world samDevice))
  ∧ asyncStorage (resetProfile (Resolved tt) samDevice).2
      !! FAMILY_STORAGE_KEY = None
  ∧ render (ui (world (loadProfile profileJson (Resolved tt)
              (restart (resetProfile (Resolved tt) samDevice).2)).2))
    = Resolved ProfileSetupScreen.
Proof.
  split; [reflexivity|].
  exact (reset_restart_load profileJson (Resolved tt) samDevice eq_refl).
Defined.

(** X22: what a failed call to the storage leaves: when [setItem] rejects,
    the profile is in use but not stored, so the next start reads what was
    stored before; when [removeItem] rejects, nothing changes. *)
Theorem storage_failure (json : JSON) (p : Profile.t) (getItem : outcome unit)
    (reason : string) (d : Device) :
  let saved := (saveProfile json (Rejected reason) p d).2 in
  profile (ui (world saved)) = Some p
  ∧ (saveProfile json (Rejected reason) p d).1 = Rejected reason
  ∧ asyncStorage saved = asyncStorage d
  ∧ loadProfile json getItem (restart saved)
    = loadProfile json getItem (restart d)
  ∧ resetProfile (Rejected reason) d = (Rejected reason, d).
Proof. done. Qed.
